(** * Address import of juju/description (address.go)

    A shallow embedding of [address.go]: the [address] record, its
    accessors, direct construction ([newAddress]), the versioned import
    ([importAddress], [importAddressV1] .. [importAddressV3]) and the batch
    import ([importAddresses]), together with the parts of
    github.com/juju/schema and github.com/juju/errors the file calls. *)

From stdpp Require Import gmap strings list fin_maps.
From Stdlib Require Import ZArith.

Open Scope Z_scope.
Open Scope string_scope.

(** ** Dynamic values

    A Go [interface{}] as it comes out of a document parser. [VMap] is a
    [map[string]interface{}]; [VMapI] stands for a
    [map[interface{}]interface{}], the shape nested YAML mappings decode
    to, which is a mapping but not of the asserted type. *)

#[warnings="-register-all"]
Inductive value : Type :=
| VNil
| VBool (b : bool)
| VInt (n : Z)
| VString (s : string)
| VList (l : list value)
| VMapI (m : list (value * value))
| VMap (m : gmap string value).

(** The printed dynamic type of a value, what the [%T] verb shows. *)
Definition typeName (v : value) : string :=
  match v with
  | VNil => "<nil>"
  | VBool _ => "bool"
  | VInt _ => "int"
  | VString _ => "string"
  | VList _ => "[]interface {}"
  | VMapI _ => "map[interface {}]interface {}"
  | VMap _ => "map[string]interface {}"
  end.

(** ** Errors

    The error values of juju/schema and juju/errors that [address.go]
    builds. A formatted error keeps its format string and its arguments
    apart, as the call is written in the source.
    - [SchemaError want got path] is the [error_{want, got, path}] of
      juju/schema; [got] is [VNil] when the checker was handed nothing;
    - [Errorf] and [NotValidf] are [errors.Errorf] and [errors.NotValidf];
      the latter is the error that [errors.IsNotValid] recognises;
    - [Trace err] is [errors.Trace(err)];
    - [Annotate err message] is [errors.Annotate(err, message)], and
      [errors.Annotatef] with a format that takes no argument. *)

Inductive fmtArg : Type :=
| ArgInt (n : Z)          (* an integer shown with %d *)
| ArgType (v : value).    (* a value whose type is shown with %T *)

Inductive error : Type :=
| SchemaError (want : string) (got : value) (path : list string)
| Errorf (format : string) (args : list fmtArg)
| NotValidf (format : string) (args : list fmtArg)
| Trace (err : error)
| Annotate (err : error) (message : string).

(** Outcome of a Go function returning [(T, error)] that may also panic on
    a failed type assertion. *)
Inductive result (A : Type) : Type :=
| Ok (a : A)
| Err (e : error)
| Panic.

Arguments Ok {A} a.
Arguments Err {A} e.
Arguments Panic {A}.

Global Instance result_bind : MBind result := fun A B k r =>
  match r with
  | Ok a => k a
  | Err e => Err e
  | Panic => Panic
  end.

(** ** github.com/juju/schema, as far as [address.go] uses it *)

Module schema.

(** [schema.String()] is the only field checker of the address schemas. *)
Inductive Checker : Type :=
| String.

(** [stringC.Coerce]: a string is returned as it is; anything else,
    [nil] included, is a schema error that records the offending value
    and the path of the field. *)
Definition Coerce (c : Checker) (v : value) (path : list string) : result value :=
  match c with
  | String =>
      match v with
      | VString s => Ok (VString s)
      | _ => Err (SchemaError "string" v path)
      end
  end.

Abbreviation Fields := (gmap string Checker).
Abbreviation Defaults := (gmap string value).

(** [schema.FieldMap(fields, defaults)]. *)
Record fieldMapC : Type := FieldMap {
  fields : Fields;
  defaults : Defaults
}.

(** Go leaves the order in which [range] walks a map unspecified. A
    [rangeOrder] says in which order the entries of a field map are
    visited during one call; it is [fair] when it yields every entry of
    the map exactly once. *)
Definition rangeOrder : Type := Fields → list (string * Checker).

Definition fair (rk : rangeOrder) : Prop :=
  ∀ m : Fields, rk m ≡ₚ map_to_list m.

(** The value handed to the checker of field [k]: the raw value when
    the key is present (a present [nil] included), else the field's
    default, else [nil]. *)
Definition fieldValue (c : fieldMapC) (v : gmap string value) (k : string) : value :=
  match v !! k with
  | Some x => x
  | None => default VNil (defaults c !! k)
  end.

(** The loop [for k, checker := range c.fields] of [fieldMapC.Coerce]:
    the first field that fails to coerce ends the loop with its error.
    Keys of [v] that are not fields are never looked at. *)
Fixpoint coerceFields (c : fieldMapC) (v : gmap string value) (path : list string)
    (entries : list (string * Checker)) (out : gmap string value)
    : result (gmap string value) :=
  match entries with
  | [] => Ok out
  | (k, checker) :: rest =>
      newv ← Coerce checker (fieldValue c v k) (path ++ ["."; k]);
      coerceFields c v path rest (<[k := newv]> out)
  end.

(** [fieldMapC.Coerce] on a [map[string]interface{}]. Every default of
    the address schemas belongs to a field ([defaults_are_fields] below),
    so the closing pass over [c.defaults] finds each of them in [out]
    already and is left out. *)
Definition FieldMap_Coerce (rk : rangeOrder) (c : fieldMapC)
    (v : gmap string value) (path : list string) : result (gmap string value) :=
  coerceFields c v path (rk (fields c)) ∅.

(** Two fair orders: the one the map's representation gives, and its
    reverse. *)
Definition ascending : rangeOrder := fun m => map_to_list m.
Definition descending : rangeOrder := fun m => reverse (map_to_list m).

End schema.

(** ** The address record *)

(** [AddressArgs]; a field left out of the struct literal is the empty
    string. *)
Record AddressArgs : Type := mkAddressArgs {
  arg_Value : string;
  arg_Type : string;
  arg_Scope : string;
  arg_Origin : string;
  arg_SpaceID : string;
  arg_CIDR : string
}.

(** The [address] struct; a Go [int] is taken as an integer of [Z]. *)
Record address : Type := mkAddress {
  Version : Z;
  Value_ : string;
  Type_ : string;
  Scope_ : string;
  Origin_ : string;
  SpaceID_ : string;
  CIDR_ : string
}.

Global Instance address_eq_dec : EqDecision address.
Proof. solve_decision. Defined.

Definition newAddress (args : AddressArgs) : address :=
  {| Version := 3;
     Value_ := arg_Value args;
     Type_ := arg_Type args;
     Scope_ := arg_Scope args;
     Origin_ := arg_Origin args;
     SpaceID_ := arg_SpaceID args;
     CIDR_ := arg_CIDR args |}.

(** The methods that implement the [Address] interface. *)
Definition address_Value (a : address) : string := Value_ a.
Definition address_Type (a : address) : string := Type_ a.
Definition address_Scope (a : address) : string := Scope_ a.
Definition address_Origin (a : address) : string := Origin_ a.
Definition address_SpaceID (a : address) : string := SpaceID_ a.
Definition address_CIDR (a : address) : string := CIDR_ a.

(** ** Field schemas, one layered on the other *)

Definition addressV1Fields : schema.Fields * schema.Defaults :=
  let fields : schema.Fields :=
    <["origin" := schema.String]> (<["scope" := schema.String]>
      (<["type" := schema.String]> (<["value" := schema.String]> ∅))) in
  let defaults : schema.Defaults :=
    <["origin" := VString ""]> (<["scope" := VString ""]> ∅) in
  (fields, defaults).

Definition addressV2Fields : schema.Fields * schema.Defaults :=
  let '(fields, defaults) := addressV1Fields in
  (<["spaceid" := schema.String]> fields, <["spaceid" := VString ""]> defaults).

Definition addressV3Fields : schema.Fields * schema.Defaults :=
  let '(fields, defaults) := addressV2Fields in
  (<["cidr" := schema.String]> fields, <["cidr" := VString ""]> defaults).

(** [valid[k].(string)]: the assertion panics on anything but a string,
    a missing key included. *)
Definition assertString (v : option value) : result string :=
  match v with
  | Some (VString s) => Ok s
  | _ => Panic
  end.

(** ** Import *)

Abbreviation Source := (gmap string value).

(** The type of a version's import function; the first argument is the
    order in which the call walks its field map. *)
Abbreviation addressDeserializationFunc :=
  (schema.rangeOrder → Source → result address).

Section Importers.

(** [getVersion] belongs to another file of the package: it extracts
    the integer version tag of a document, or fails. It is taken as
    given. *)
Variable getVersion : Source → result Z.

(** The three import functions. A field the struct literal of a version
    does not set is the empty string. *)
Definition importAddressV1 (rk : schema.rangeOrder) (source : Source) : result address :=
  let '(fields, defaults) := addressV1Fields in
  let checker := schema.FieldMap fields defaults in
  match schema.FieldMap_Coerce rk checker source [] with
  | Err err => Err (Annotate err "address v1 schema check failed")
  | Panic => Panic
  | Ok valid =>
      value ← assertString (valid !! "value");
      type ← assertString (valid !! "type");
      scope ← assertString (valid !! "scope");
      origin ← assertString (valid !! "origin");
      Ok {| Version := 1;
            Value_ := value;
            Type_ := type;
            Scope_ := scope;
            Origin_ := origin;
            SpaceID_ := "";
            CIDR_ := "" |}
  end.

Definition importAddressV2 (rk : schema.rangeOrder) (source : Source) : result address :=
  let '(fields, defaults) := addressV2Fields in
  let checker := schema.FieldMap fields defaults in
  match schema.FieldMap_Coerce rk checker source [] with
  | Err err => Err (Annotate err "address v2 schema check failed")
  | Panic => Panic
  | Ok valid =>
      value ← assertString (valid !! "value");
      type ← assertString (valid !! "type");
      scope ← assertString (valid !! "scope");
      origin ← assertString (valid !! "origin");
      spaceid ← assertString (valid !! "spaceid");
      Ok {| Version := 2;
            Value_ := value;
            Type_ := type;
            Scope_ := scope;
            Origin_ := origin;
            SpaceID_ := spaceid;
            CIDR_ := "" |}
  end.

Definition importAddressV3 (rk : schema.rangeOrder) (source : Source) : result address :=
  let '(fields, defaults) := addressV3Fields in
  let checker := schema.FieldMap fields defaults in
  match schema.FieldMap_Coerce rk checker source [] with
  | Err err => Err (Annotate err "address v3 schema check failed")
  | Panic => Panic
  | Ok valid =>
      value ← assertString (valid !! "value");
      type ← assertString (valid !! "type");
      scope ← assertString (valid !! "scope");
      origin ← assertString (valid !! "origin");
      spaceid ← assertString (valid !! "spaceid");
      cidr ← assertString (valid !! "cidr");
      Ok {| Version := 3;
            Value_ := value;
            Type_ := type;
            Scope_ := scope;
            Origin_ := origin;
            SpaceID_ := spaceid;
            CIDR_ := cidr |}
  end.

Definition addressDeserializationFuncs : gmap Z addressDeserializationFunc :=
  <[3 := importAddressV3]> (<[2 := importAddressV2]> (<[1 := importAddressV1]> ∅)).

(** [importAddress] constructs an address from a map representing a
    serialised address. *)
Definition importAddress (rk : schema.rangeOrder) (source : Source) : result address :=
  match getVersion source with
  | Err err => Err (Annotate err "address version schema check failed")
  | Panic => Panic
  | Ok version =>
      match addressDeserializationFuncs !! version with
      | None => Err (NotValidf "version %d" [ArgInt version])
      | Some importFunc => importFunc rk source
      end
  end.

(** What a call of [importAddresses] comes to: the pair
    [([]*address, error)] it returns, or a panic. *)
Inductive batch : Type :=
| Returned (result : list address) (err : option error)
| Panicked.

(** The loop of [importAddresses] from element [i] on, with the
    addresses collected so far. [rks j] is the order in which the field
    map is walked while element [j] is decoded. *)
Fixpoint importAddressesFrom (rks : nat → schema.rangeOrder) (i : nat)
    (sourceList : list value) (result : list address) : batch :=
  match sourceList with
  | [] => Returned result None
  | value :: rest =>
      match value with
      | VMap source =>
          match importAddress (rks i) source with
          | Err err => Returned [] (Some (Trace err))
          | Panic => Panicked
          | Ok addr => importAddressesFrom rks (S i) rest (result ++ [addr])
          end
      | _ =>
          Returned [] (Some (Errorf "unexpected value for address %d, %T"
                                    [ArgInt (Z.of_nat i); ArgType value]))
      end
  end.

Definition importAddresses (rks : nat → schema.rangeOrder)
    (sourceList : list value) : batch :=
  importAddressesFrom rks 0 sourceList [].

End Importers.

(** Modelled from the spec: [getVersion] is not part of [address.go]. The
    specification describes it as the primitive that extracts the integer
    version tag of a document and fails when the tag is absent or not an
    integer; [tagOf] reads the [version] key that way. It is the instance
    the examples run with. *)
Definition tagOf (source : Source) : result Z :=
  match source !! "version" with
  | Some (VInt n) => Ok n
  | Some v => Err (Trace (SchemaError "int" v ["."; "version"]))
  | None => Err (Trace (SchemaError "int" VNil ["."; "version"]))
  end.

(** * Vocabulary of the properties *)

(** The string a value is, when it is one. *)
Definition stringOf (x : value) : option string :=
  match x with
  | VString s => Some s
  | _ => None
  end.

(** The checker the import function of a registered version builds. *)
Definition schemaOf (version : Z) : schema.fieldMapC :=
  match version with
  | 1 => schema.FieldMap addressV1Fields.1 addressV1Fields.2
  | 2 => schema.FieldMap addressV2Fields.1 addressV2Fields.2
  | 3 => schema.FieldMap addressV3Fields.1 addressV3Fields.2
  | _ => schema.FieldMap ∅ ∅
  end.

(** The message a version's import function puts on a failed check. *)
Definition annotation (version : Z) : string :=
  match version with
  | 1 => "address v1 schema check failed"
  | 2 => "address v2 schema check failed"
  | 3 => "address v3 schema check failed"
  | _ => ""
  end.

(** The string field [k] holds in a document, after defaulting. *)
Definition fieldString (version : Z) (source : Source) (k : string) : string :=
  default "" (stringOf (schema.fieldValue (schemaOf version) source k)).

(** The address a version's import function builds from a document whose
    fields all coerce: the fields the version does not know stay empty. *)
Definition assembled (version : Z) (source : Source) : address :=
  {| Version := version;
     Value_ := fieldString version source "value";
     Type_ := fieldString version source "type";
     Scope_ := fieldString version source "scope";
     Origin_ := fieldString version source "origin";
     SpaceID_ := if decide (2 ≤ version)%Z then fieldString version source "spaceid" else "";
     CIDR_ := if decide (3 ≤ version)%Z then fieldString version source "cidr" else "" |}.

(** Every field of the version's schema holds a string, after defaulting. *)
Definition wellTyped (version : Z) (source : Source) : Prop :=
  ∀ k, is_Some (schema.fields (schemaOf version) !! k) →
       is_Some (stringOf (schema.fieldValue (schemaOf version) source k)).

(** The outcome a strategy may have on a document. *)
Definition strategyOutcome (version : Z) (source : Source) (r : result address) : Prop :=
  match r with
  | Ok a => wellTyped version source ∧ a = assembled version source
  | Err e =>
      ∃ k, is_Some (schema.fields (schemaOf version) !! k)
           ∧ stringOf (schema.fieldValue (schemaOf version) source k) = None
           ∧ e = Annotate (SchemaError "string"
                             (schema.fieldValue (schemaOf version) source k) ["."; k])
                          (annotation version)
  | Panic => False
  end.

(** The versions that have an import function. *)
Definition supported (version : Z) : Prop :=
  version = 1 ∨ version = 2 ∨ version = 3.

(** The fields that may be absent at a version: [scope] and [origin] from
    version 1 on, [spaceid] from version 2 on, [cidr] from version 3 on. *)
Definition optionalAt (version : Z) (k : string) : Prop :=
  k = "scope" ∨ k = "origin"
  ∨ (k = "spaceid" ∧ (2 ≤ version)%Z) ∨ (k = "cidr" ∧ (3 ≤ version)%Z).

Global Instance optionalAt_dec version k : Decision (optionalAt version k).
Proof. unfold optionalAt. apply _. Defined.

(** The error of a required field that is missing: the checker was handed
    nothing. *)
Definition missingField (version : Z) (e : error) : Prop :=
  ∃ k, e = Annotate (SchemaError "string" VNil ["."; k]) (annotation version).

(** Two errors of one version's schema check: each is the error of a field
    of that version which the document does not fill with a string. They
    agree on everything but the field they name. *)
Definition sameSchemaCheck (source : Source) (e1 e2 : error) : Prop :=
  ∃ version k1 k2,
    supported version
    ∧ is_Some (schema.fields (schemaOf version) !! k1)
    ∧ is_Some (schema.fields (schemaOf version) !! k2)
    ∧ stringOf (schema.fieldValue (schemaOf version) source k1) = None
    ∧ stringOf (schema.fieldValue (schemaOf version) source k2) = None
    ∧ e1 = Annotate (SchemaError "string"
                       (schema.fieldValue (schemaOf version) source k1) ["."; k1])
                    (annotation version)
    ∧ e2 = Annotate (SchemaError "string"
                       (schema.fieldValue (schemaOf version) source k2) ["."; k2])
                    (annotation version).

(** Whether an error mentions the integer [i] among its formatted
    arguments, at any depth of wrapping. *)
Fixpoint carriesIndex (i : Z) (e : error) : bool :=
  let mentions (a : fmtArg) :=
    match a with
    | ArgInt n => bool_decide (n = i)
    | ArgType _ => false
    end in
  match e with
  | SchemaError _ _ _ => false
  | Errorf _ args => existsb mentions args
  | NotValidf _ args => existsb mentions args
  | Trace err => carriesIndex i err
  | Annotate err _ => carriesIndex i err
  end.

(** Every element of [docs] is a map that decodes; [i] is the position of
    the first of them in the whole input. *)
Definition allDecode (getVersion : Source → result Z) (rks : nat → schema.rangeOrder)
    (i : nat) (docs : list value) : Prop :=
  ∀ j doc, docs !! j = Some doc →
    ∃ source addr, doc = VMap source
                   ∧ importAddress getVersion (rks (i + j)%nat) source = Ok addr.

(** ** Example documents *)

(** A version-1 document with its required fields only. *)
Definition docV1 : Source :=
  <["version" := VInt 1]> (<["type" := VString "ipv4"]>
    (<["value" := VString "10.0.0.1"]> ∅)).

(** A version-3 document with all six fields. *)
Definition docV3 : Source :=
  <["version" := VInt 3]> (<["cidr" := VString "10.0.0.0/24"]>
    (<["spaceid" := VString "7"]> (<["origin" := VString "provider"]>
      (<["scope" := VString "local-cloud"]> (<["type" := VString "ipv4"]>
        (<["value" := VString "10.0.0.1"]> ∅)))))).

(** A document of a version that has no import function. *)
Definition docV99 : Source :=
  <["version" := VInt 99]> (<["type" := VString "ipv4"]>
    (<["value" := VString "10.0.0.1"]> ∅)).

(** Arguments with [Scope], [SpaceID] and [CIDR] left out. *)
Definition someArgs : AddressArgs :=
  {| arg_Value := "10.0.0.1"; arg_Type := "ipv4"; arg_Scope := "";
     arg_Origin := "provider"; arg_SpaceID := ""; arg_CIDR := "" |}.

(** A version-1 document that lacks [value] and holds an integer under
    [type]. *)
Definition docV1_noValue_badType : Source :=
  <["version" := VInt 1]> (<["type" := VInt 5]> ∅).

(** A version-1 document that lacks [value] and is otherwise in order. *)
Definition docV1_noValue : Source :=
  <["version" := VInt 1]> (<["type" := VString "ipv4"]> ∅).

(** A version-1 document that lacks both required fields. *)
Definition docV1_empty : Source := <["version" := VInt 1]> ∅.

(** Keys a later writer may have added to a version-1 document; none is
    a field of the version-1 schema. *)
Definition laterKeys : Source :=
  <["version" := VInt 1]> (<["cidr" := VString "10.0.0.0/24"]>
    (<["spaceid" := VInt 7]> (<["provider-id" := VList [VNil]]> ∅))).

(** A version-3 document without [value]. *)
Definition docV3_noValue : Source :=
  <["version" := VInt 3]> (<["type" := VString "ipv4"]> ∅).

(** ** Vocabulary of the further properties *)

(** The document holds the string [s] under [k]. *)
Definition holdsString (source : Source) (k s : string) : Prop :=
  source !! k = Some (VString s).

(** The document holds the string [s] under [k], or has no key [k] and
    [s] is the empty string. *)
Definition holdsOptional (source : Source) (k s : string) : Prop :=
  source !! k = Some (VString s) ∨ (source !! k = None ∧ s = "").

(** What it takes for a document to decode into the address [a] under the
    import function of [version]. *)
Definition decodesAs (version : Z) (source : Source) (a : address) : Prop :=
  Version a = version
  ∧ holdsString source "value" (Value_ a)
  ∧ holdsString source "type" (Type_ a)
  ∧ holdsOptional source "scope" (Scope_ a)
  ∧ holdsOptional source "origin" (Origin_ a)
  ∧ (if decide (2 ≤ version)%Z then holdsOptional source "spaceid" (SpaceID_ a)
     else SpaceID_ a = "")
  ∧ (if decide (3 ≤ version)%Z then holdsOptional source "cidr" (CIDR_ a)
     else CIDR_ a = "").

(** The address [a] as the import function of [version] builds it: the
    version is [version], and the fields the version does not know are
    empty. *)
Definition atVersion (version : Z) (a : address) : address :=
  {| Version := version;
     Value_ := Value_ a;
     Type_ := Type_ a;
     Scope_ := Scope_ a;
     Origin_ := Origin_ a;
     SpaceID_ := if decide (2 ≤ version)%Z then SpaceID_ a else "";
     CIDR_ := if decide (3 ≤ version)%Z then CIDR_ a else "" |}.

(** A string field whose yaml tag says [omitempty]: the key is written
    unless the string is empty. *)
Definition omitempty (k s : string) (m : Source) : Source :=
  if decide (s = "") then m else <[k := VString s]> m.

(** The mapping the yaml tags of the [address] struct describe: [version],
    [value] and [type] are always written, [scope], [origin], [spaceid]
    and [cidr] only when they are not empty. *)
Definition tagged (a : address) : Source :=
  omitempty "cidr" (CIDR_ a) (omitempty "spaceid" (SpaceID_ a)
    (omitempty "origin" (Origin_ a) (omitempty "scope" (Scope_ a)
      (<["type" := VString (Type_ a)]> (<["value" := VString (Value_ a)]>
        (<["version" := VInt (Version a)]> ∅)))))).

(** The first offending element of a batch: the elements before position
    [i] are maps that decode, and the element at [i] is either no
    [map[string]interface{}], which [e] reports with its position and
    type, or a map whose import fails, which [e] reports traced. *)
Definition firstOffender (getVersion : Source → result Z)
    (rks : nat → schema.rangeOrder) (docs : list value) (i : nat) (e : error) : Prop :=
  allDecode getVersion rks 0 (take i docs)
  ∧ ∃ bad, docs !! i = Some bad
      ∧ match bad with
        | VMap source =>
            ∃ err, importAddress getVersion (rks i) source = Err err ∧ e = Trace err
        | _ =>
            e = Errorf "unexpected value for address %d, %T"
                       [ArgInt (Z.of_nat i); ArgType bad]
        end.

(** What makes a field map and its defaults a well-formed layer: the
    fields without a default are [value] and [type], and every default
    is the empty string of a field of the map. *)
Definition wellLayered (fd : schema.Fields * schema.Defaults) : Prop :=
  (∀ k, is_Some (fd.1 !! k) ∧ fd.2 !! k = None ↔ k = "value" ∨ k = "type")
  ∧ (∀ k d, fd.2 !! k = Some d → d = VString "" ∧ is_Some (fd.1 !! k)).

(** The addresses [out] are what the documents [docs] decode to, one for
    one and in order. *)
Definition decodedInto (getVersion : Source → result Z)
    (rks : nat → schema.rangeOrder) (docs : list value) (out : list address) : Prop :=
  length out = length docs
  ∧ ∀ i doc, docs !! i = Some doc →
      ∃ source addr, doc = VMap source ∧ out !! i = Some addr
                     ∧ importAddress getVersion (rks i) source = Ok addr.

(** * Properties *)

(** ** The field-map coercion *)

Lemma stringOf_Some x s : stringOf x = Some s ↔ x = VString s.
Proof. destruct x; simpl; split; intros H; congruence. Qed.

Section Coercion.

Import schema.

Variable c : fieldMapC.
Variable path : list string.

Lemma Coerce_string ch x s p :
  stringOf x = Some s → Coerce ch x p = Ok (VString s).
Proof. intros ->%stringOf_Some. by destruct ch. Qed.

Lemma Coerce_other ch x p :
  stringOf x = None → Coerce ch x p = Err (SchemaError "string" x p).
Proof. destruct ch, x; simpl; congruence. Qed.

(** The loop reads the document at the visited keys only. *)
Lemma coerceFields_ext (v v' : gmap string value) entries out :
  (∀ k ch, (k, ch) ∈ entries → v !! k = v' !! k) →
  coerceFields c v path entries out = coerceFields c v' path entries out.
Proof.
  revert out. induction entries as [|[k ch] rest IH]; intros out Hagree; [done|].
  simpl. unfold fieldValue. rewrite (Hagree k ch) by left.
  destruct (Coerce ch _ _); simpl; try done.
  apply IH. intros k' ch' Hin. apply (Hagree k' ch'). by right.
Qed.

(** What the loop comes to, whatever the order of the entries: either
    every visited field holds a string and lands in the output, or the
    error is the schema error of one visited field that does not. *)
Lemma coerceFields_spec (v : gmap string value) entries out :
  match coerceFields c v path entries out with
  | Ok out' =>
      (∀ k ch, (k, ch) ∈ entries →
         ∃ s, fieldValue c v k = VString s ∧ out' !! k = Some (VString s))
      ∧ (∀ k, k ∉ entries.*1 → out' !! k = out !! k)
  | Err e =>
      ∃ k ch, (k, ch) ∈ entries ∧ stringOf (fieldValue c v k) = None
              ∧ e = SchemaError "string" (fieldValue c v k) (path ++ ["."; k])
  | Panic => False
  end.
Proof.
  revert out. induction entries as [|[k ch] rest IH]; intros out; simpl.
  - split; [intros k ch Hin; by apply elem_of_nil in Hin | done].
  - destruct (stringOf (fieldValue c v k)) as [s|] eqn:Hs.
    + rewrite (Coerce_string _ _ s) by done. simpl.
      specialize (IH (<[k := VString s]> out)).
      destruct (coerceFields c v path rest _) as [out'|e|]; [|  |done].
      * destruct IH as [Hin Hout]. split.
        -- intros k' ch' [Heq|Hrest]%elem_of_cons; [|by eauto].
           injection Heq as -> ->. exists s. split; [by apply stringOf_Some|].
           destruct (decide (k ∈ rest.*1)) as [Hk|Hk].
           ++ apply list_elem_of_fmap in Hk as [[k1 ch1] [-> Hk]].
              destruct (Hin _ _ Hk) as (s1 & H1 & H2). simpl in *.
              apply stringOf_Some in Hs. congruence.
           ++ rewrite Hout by done. apply lookup_insert_eq.
        -- intros k' Hk'. simpl in Hk'. apply not_elem_of_cons in Hk' as [Hne Hk'].
           rewrite Hout by done. by apply lookup_insert_ne.
      * destruct IH as (k' & ch' & Hin & Hnone & ->).
        exists k', ch'. split; [by right | done].
    + rewrite Coerce_other by done. simpl.
      exists k, ch. split; [by left | done].
Qed.

(** Under a fair order the visited entries are the fields of the map. *)
Lemma fair_elem_of rk (m : Fields) k ch :
  fair rk → (k, ch) ∈ rk m ↔ m !! k = Some ch.
Proof. intros Hfair. rewrite (Hfair m). apply elem_of_map_to_list. Qed.

Lemma FieldMap_Coerce_spec rk (v : gmap string value) :
  fair rk →
  match FieldMap_Coerce rk c v path with
  | Ok out =>
      ∀ k, is_Some (fields c !! k) →
        ∃ s, fieldValue c v k = VString s ∧ out !! k = Some (VString s)
  | Err e =>
      ∃ k, is_Some (fields c !! k) ∧ stringOf (fieldValue c v k) = None
           ∧ e = SchemaError "string" (fieldValue c v k) (path ++ ["."; k])
  | Panic => False
  end.
Proof.
  intros Hfair. unfold FieldMap_Coerce.
  pose proof (coerceFields_spec v (rk (fields c)) ∅) as Hspec.
  destruct (coerceFields c v path (rk (fields c)) ∅) as [out|e|]; [| |done].
  - destruct Hspec as [Hin _]. intros k [ch Hk].
    apply (Hin k ch). by apply fair_elem_of.
  - destruct Hspec as (k & ch & Hin & Hnone & ->).
    exists k. split; [|done]. exists ch. by apply (fair_elem_of rk).
Qed.

Lemma FieldMap_Coerce_ext rk (v v' : gmap string value) :
  fair rk →
  (∀ k, is_Some (fields c !! k) → v !! k = v' !! k) →
  FieldMap_Coerce rk c v path = FieldMap_Coerce rk c v' path.
Proof.
  intros Hfair Hagree. apply coerceFields_ext.
  intros k ch Hin. apply Hagree. exists ch. by apply (fair_elem_of rk).
Qed.

End Coercion.

Lemma fair_ascending : schema.fair schema.ascending.
Proof. by intros m. Qed.

Lemma fair_descending : schema.fair schema.descending.
Proof. intros m. unfold schema.descending. by rewrite reverse_Permutation. Qed.

(** ** The three strategies *)

Lemma fields_V1 k :
  is_Some (schema.fields (schemaOf 1) !! k)
  ↔ k = "value" ∨ k = "type" ∨ k = "scope" ∨ k = "origin".
Proof.
  simpl. unfold addressV1Fields. simpl.
  rewrite !lookup_insert_is_Some', lookup_empty, is_Some_alt.
  intuition (subst; auto 10).
Qed.

Lemma fields_V2 k :
  is_Some (schema.fields (schemaOf 2) !! k)
  ↔ k = "value" ∨ k = "type" ∨ k = "scope" ∨ k = "origin" ∨ k = "spaceid".
Proof.
  simpl. unfold addressV2Fields, addressV1Fields. simpl.
  rewrite !lookup_insert_is_Some', lookup_empty, is_Some_alt.
  intuition (subst; auto 10).
Qed.

Lemma fields_V3 k :
  is_Some (schema.fields (schemaOf 3) !! k)
  ↔ k = "value" ∨ k = "type" ∨ k = "scope" ∨ k = "origin" ∨ k = "spaceid"
    ∨ k = "cidr".
Proof.
  simpl. unfold addressV3Fields, addressV2Fields, addressV1Fields. simpl.
  rewrite !lookup_insert_is_Some', lookup_empty, is_Some_alt.
  intuition (subst; auto 10).
Qed.

(** Opens a strategy at its checker: [schemaOf version] takes the place of
    the field map the strategy builds, and the coercion is split on its
    three outcomes. *)
Ltac open_strategy version fd rk source Hfair :=
  let Hspec := fresh "Hspec" in
  pose proof (FieldMap_Coerce_spec (schemaOf version) [] rk source Hfair) as Hspec;
  change fd with (schema.fields (schemaOf version), schema.defaults (schemaOf version));
  cbv beta iota zeta;
  change (schema.FieldMap (schema.fields (schemaOf version))
                          (schema.defaults (schemaOf version)))
    with (schemaOf version);
  destruct (schema.FieldMap_Coerce rk (schemaOf version) source []) as [valid|e|];
  [ | destruct Hspec as (k & Hk & Hnone & ->); exists k; done | done ].

(** After a successful coercion each asserted key holds the string the
    document, or the default, gave it. *)
Ltac coerced_field Hout k :=
  let s := fresh "s" in
  let Hv := fresh "Hv" in
  let Hl := fresh "Hl" in
  destruct (Hout k) as (s & Hv & Hl);
  [ first [ apply fields_V1 | apply fields_V2 | apply fields_V3 ]; auto 10
  | rewrite Hl; clear Hl ].

Ltac close_strategy :=
  split; [done|];
  unfold assembled, fieldString;
  repeat match goal with
  | H : schema.fieldValue _ _ _ = VString _ |- _ => rewrite H; clear H
  end;
  reflexivity.

Lemma wellTyped_coerced version source (out : Source) :
  (∀ k, is_Some (schema.fields (schemaOf version) !! k) →
        ∃ s, schema.fieldValue (schemaOf version) source k = VString s
             ∧ out !! k = Some (VString s)) →
  wellTyped version source.
Proof.
  intros Hout k Hk. destruct (Hout k Hk) as (s & -> & _). by exists s.
Qed.

Lemma importAddressV1_outcome rk source :
  schema.fair rk → strategyOutcome 1 source (importAddressV1 rk source).
Proof.
  intros Hfair. unfold importAddressV1.
  open_strategy 1 addressV1Fields rk source Hfair.
  pose proof (wellTyped_coerced _ _ _ Hspec) as Hwt.
  coerced_field Hspec "value". coerced_field Hspec "type".
  coerced_field Hspec "scope". coerced_field Hspec "origin".
  close_strategy.
Qed.

Lemma importAddressV2_outcome rk source :
  schema.fair rk → strategyOutcome 2 source (importAddressV2 rk source).
Proof.
  intros Hfair. unfold importAddressV2.
  open_strategy 2 addressV2Fields rk source Hfair.
  pose proof (wellTyped_coerced _ _ _ Hspec) as Hwt.
  coerced_field Hspec "value". coerced_field Hspec "type".
  coerced_field Hspec "scope". coerced_field Hspec "origin".
  coerced_field Hspec "spaceid".
  close_strategy.
Qed.

Lemma importAddressV3_outcome rk source :
  schema.fair rk → strategyOutcome 3 source (importAddressV3 rk source).
Proof.
  intros Hfair. unfold importAddressV3.
  open_strategy 3 addressV3Fields rk source Hfair.
  pose proof (wellTyped_coerced _ _ _ Hspec) as Hwt.
  coerced_field Hspec "value". coerced_field Hspec "type".
  coerced_field Hspec "scope". coerced_field Hspec "origin".
  coerced_field Hspec "spaceid". coerced_field Hspec "cidr".
  close_strategy.
Qed.

(** ** Dispatch *)

Lemma funcs_lookup version :
  addressDeserializationFuncs !! version =
    if decide (3 = version) then Some importAddressV3
    else if decide (2 = version) then Some importAddressV2
    else if decide (1 = version) then Some importAddressV1
    else None.
Proof.
  unfold addressDeserializationFuncs.
  by rewrite !lookup_insert, lookup_empty.
Qed.

Lemma funcs_supported version :
  is_Some (addressDeserializationFuncs !! version) ↔ supported version.
Proof.
  rewrite funcs_lookup. unfold supported.
  repeat case_decide; subst; rewrite ?is_Some_alt; intuition congruence.
Qed.

Section Dispatch.

Variable getVersion : Source → result Z.
Variable rk : schema.rangeOrder.
Hypothesis rk_fair : schema.fair rk.

(** A document whose tag is a registered version has the outcome of that
    version's strategy. *)
Lemma importAddress_supported source version :
  getVersion source = Ok version → supported version →
  strategyOutcome version source (importAddress getVersion rk source).
Proof using rk_fair.
  intros Htag Hsup. unfold importAddress. rewrite Htag, funcs_lookup.
  destruct Hsup as [->|[->| ->]]; simpl.
  - by apply importAddressV1_outcome.
  - by apply importAddressV2_outcome.
  - by apply importAddressV3_outcome.
Qed.

Lemma importAddress_unsupported source version :
  getVersion source = Ok version → ¬ supported version →
  importAddress getVersion rk source = Err (NotValidf "version %d" [ArgInt version]).
Proof.
  intros Htag Hsup. unfold importAddress. rewrite Htag.
  destruct (addressDeserializationFuncs !! version) eqn:Hf; [|done].
  destruct Hsup. apply funcs_supported. by rewrite Hf.
Qed.

(** A well-typed document of a registered version decodes to the address
    assembled from its fields. *)
Lemma importAddress_wellTyped source version :
  getVersion source = Ok version → supported version →
  wellTyped version source →
  importAddress getVersion rk source = Ok (assembled version source).
Proof using rk_fair.
  intros Htag Hsup Hwt.
  pose proof (importAddress_supported source version Htag Hsup) as Hout.
  destruct (importAddress getVersion rk source) as [a|e|]; simpl in Hout.
  - by destruct Hout as [_ ->].
  - destruct Hout as (k & Hk & Hnone & _).
    destruct (Hwt k Hk) as [s Hs]. congruence.
  - done.
Qed.

(** The single import never panics: the assertions that follow a
    coercion find what they assert. *)
Lemma importAddress_no_panic source :
  getVersion source ≠ Panic → importAddress getVersion rk source ≠ Panic.
Proof using rk_fair.
  intros Htag Himp.
  destruct (getVersion source) as [version|err|] eqn:Hv; [| |done].
  - destruct (decide (supported version)) as [Hsup|Hsup].
    + pose proof (importAddress_supported source version Hv Hsup) as Hout.
      by rewrite Himp in Hout.
    + by rewrite (importAddress_unsupported source version) in Himp.
  - unfold importAddress in Himp. by rewrite Hv in Himp.
Qed.

End Dispatch.

(** ** Field values of a document *)

Lemma fieldValue_present c (v : Source) k x :
  v !! k = Some x → schema.fieldValue c v k = x.
Proof. unfold schema.fieldValue. by intros ->. Qed.

Lemma fieldValue_absent c (v : Source) k :
  v !! k = None → schema.fieldValue c v k = default VNil (schema.defaults c !! k).
Proof. unfold schema.fieldValue. by intros ->. Qed.

Lemma fieldString_present version (source : Source) k s :
  source !! k = Some (VString s) → fieldString version source k = s.
Proof. intros H. unfold fieldString. by rewrite (fieldValue_present _ _ _ _ H). Qed.

(** The optional fields are the ones with a default, and the default is
    the empty string; [value] and [type] have none in any version. *)
Lemma defaults_of version k :
  supported version →
  schema.defaults (schemaOf version) !! k =
    if decide (optionalAt version k) then Some (VString "") else None.
Proof.
  unfold optionalAt. intros [->|[->| ->]]; simpl;
    unfold addressV3Fields, addressV2Fields, addressV1Fields; simpl;
    rewrite !lookup_insert, lookup_empty;
    repeat case_decide; try done; exfalso; subst;
    intuition (try congruence; try lia).
Qed.

Lemma defaults_are_fields version k :
  is_Some (schema.defaults (schemaOf version) !! k) →
  is_Some (schema.fields (schemaOf version) !! k).
Proof.
  destruct (decide (supported version)) as [Hsup|Hsup].
  - rewrite defaults_of by done. case_decide as Hk; [|by intros [? ?]].
    intros _. unfold optionalAt in Hk. destruct Hsup as [->|[->| ->]];
      [apply fields_V1|apply fields_V2|apply fields_V3]; intuition lia.
  - assert (schemaOf version = schema.FieldMap ∅ ∅) as ->; [|by intros [? ?]].
    unfold supported in Hsup.
    destruct version as [|[[|[]|]|[]|]|]; try done; exfalso; auto.
Qed.

Lemma fieldString_absent version (source : Source) k :
  supported version → source !! k = None →
  is_Some (schema.defaults (schemaOf version) !! k) →
  fieldString version source k = "".
Proof.
  intros Hsup Hk. unfold fieldString. rewrite fieldValue_absent by done.
  rewrite defaults_of by done. case_decide; [done|by intros [? ?]].
Qed.

(** ** Construction *)

(** C3: [newAddress] is total and stamps the address with version 3, the
    greatest version that has an import function, whatever optional
    arguments are given; an optional argument left at the empty string
    gives an empty field. *)
Theorem newAddress_latest_version (args : AddressArgs) :
  Version (newAddress args) = 3
  ∧ is_Some (addressDeserializationFuncs !! Version (newAddress args))
  ∧ (∀ version, is_Some (addressDeserializationFuncs !! version) →
                (version ≤ Version (newAddress args))%Z)
  ∧ (arg_Scope args = "" → address_Scope (newAddress args) = "")
  ∧ (arg_Origin args = "" → address_Origin (newAddress args) = "")
  ∧ (arg_SpaceID args = "" → address_SpaceID (newAddress args) = "")
  ∧ (arg_CIDR args = "" → address_CIDR (newAddress args) = "").
Proof.
  split; [done|]. split; [|split].
  - apply funcs_supported. unfold supported. simpl. auto.
  - intros version [->|[->| ->]]%funcs_supported; simpl; lia.
  - by repeat split.
Qed.

Lemma newAddress_latest_version_witness :
  Version (newAddress someArgs) = 3
  ∧ address_Scope (newAddress someArgs) = ""
  ∧ address_SpaceID (newAddress someArgs) = ""
  ∧ address_CIDR (newAddress someArgs) = "".
Proof.
  destruct (newAddress_latest_version someArgs)
    as (Hv & _ & _ & Hscope & _ & Hspace & Hcidr).
  split; [exact Hv|]. split; [apply Hscope; reflexivity|].
  split; [apply Hspace; reflexivity | apply Hcidr; reflexivity].
Defined.

(** C10: the accessors of a constructed address return the arguments as
    they were supplied. *)
Theorem newAddress_accessors (args : AddressArgs) :
  address_Value (newAddress args) = arg_Value args
  ∧ address_Type (newAddress args) = arg_Type args
  ∧ address_Scope (newAddress args) = arg_Scope args
  ∧ address_Origin (newAddress args) = arg_Origin args
  ∧ address_SpaceID (newAddress args) = arg_SpaceID args
  ∧ address_CIDR (newAddress args) = arg_CIDR args.
Proof. by repeat split. Qed.

(** ** Single import *)

(** C4: a document whose tag is an integer other than 1, 2 and 3 is
    rejected with the not-valid error that names the version, and with no
    other error. *)
Theorem importAddress_unknown_version getVersion rk (source : Source) version :
  getVersion source = Ok version →
  version ≠ 1 → version ≠ 2 → version ≠ 3 →
  addressDeserializationFuncs !! version = None
  ∧ importAddress getVersion rk source
    = Err (NotValidf "version %d" [ArgInt version]).
Proof.
  intros Htag H1 H2 H3.
  assert (¬ supported version) as Hsup by (unfold supported; tauto).
  split; [|by apply importAddress_unsupported].
  apply eq_None_not_Some. by rewrite funcs_supported.
Qed.

Lemma importAddress_unknown_version_witness :
  importAddress tagOf schema.ascending docV99
  = Err (NotValidf "version %d" [ArgInt 99]).
Proof.
  apply (importAddress_unknown_version tagOf schema.ascending docV99 99);
    [reflexivity | lia | lia | lia].
Defined.

(** C2: for each of the versions 1, 2 and 3, a document tagged with the
    version that holds [value] and [type] as strings and none of the
    version's optional fields decodes to an address that keeps the
    version, takes [value] and [type] from the document and has every
    other field empty. *)
Theorem importAddress_required_only getVersion rk (source : Source) version value type :
  schema.fair rk →
  getVersion source = Ok version →
  version = 1 ∨ version = 2 ∨ version = 3 →
  source !! "value" = Some (VString value) →
  source !! "type" = Some (VString type) →
  source !! "scope" = None →
  source !! "origin" = None →
  ((2 ≤ version)%Z → source !! "spaceid" = None) →
  ((3 ≤ version)%Z → source !! "cidr" = None) →
  importAddress getVersion rk source
  = Ok {| Version := version; Value_ := value; Type_ := type; Scope_ := "";
          Origin_ := ""; SpaceID_ := ""; CIDR_ := "" |}.
Proof.
  intros Hfair Htag Hsup Hvalue Htype Hscope Horigin Hspace Hcidr.
  assert (∀ k, optionalAt version k → source !! k = None) as Habsent.
  { intros k [->|[->|[[-> ?]|[-> ?]]]]; auto. }
  assert (∀ k, optionalAt version k → fieldString version source k = "") as Hopt.
  { intros k Hk. apply fieldString_absent; [done|by apply Habsent|].
    rewrite defaults_of by done. by rewrite decide_True. }
  assert (wellTyped version source) as Hwt.
  { intros k Hk.
    assert (k = "value" ∨ k = "type" ∨ optionalAt version k) as [->|[->|Hk']].
    { unfold optionalAt.
      destruct Hsup as [->|[->| ->]];
        [apply fields_V1 in Hk|apply fields_V2 in Hk|apply fields_V3 in Hk];
        intuition lia. }
    - by rewrite (fieldValue_present _ _ _ _ Hvalue).
    - by rewrite (fieldValue_present _ _ _ _ Htype).
    - rewrite fieldValue_absent, defaults_of, decide_True by auto. done. }
  rewrite (importAddress_wellTyped getVersion rk Hfair source version) by done.
  unfold assembled.
  rewrite (fieldString_present _ _ _ _ Hvalue), (fieldString_present _ _ _ _ Htype).
  rewrite !Hopt by (unfold optionalAt; auto).
  repeat case_decide; try rewrite !Hopt by (unfold optionalAt; auto); done.
Qed.

Lemma importAddress_required_only_witness :
  importAddress tagOf schema.descending docV1
  = Ok {| Version := 1; Value_ := "10.0.0.1"; Type_ := "ipv4"; Scope_ := "";
          Origin_ := ""; SpaceID_ := ""; CIDR_ := "" |}.
Proof.
  apply (importAddress_required_only tagOf schema.descending docV1 1 "10.0.0.1" "ipv4");
    [ exact fair_descending | reflexivity | left; reflexivity | reflexivity
    | reflexivity | reflexivity | reflexivity | lia | lia ].
Defined.

(** C6: a version-3 document whose six fields are all strings decodes, and
    the six accessors of the address return the six strings of the
    document. *)
Theorem importAddress_v3_all_fields getVersion rk (source : Source)
    value type scope origin spaceid cidr :
  schema.fair rk →
  getVersion source = Ok 3 →
  source !! "value" = Some (VString value) →
  source !! "type" = Some (VString type) →
  source !! "scope" = Some (VString scope) →
  source !! "origin" = Some (VString origin) →
  source !! "spaceid" = Some (VString spaceid) →
  source !! "cidr" = Some (VString cidr) →
  ∃ addr, importAddress getVersion rk source = Ok addr
          ∧ Version addr = 3
          ∧ address_Value addr = value
          ∧ address_Type addr = type
          ∧ address_Scope addr = scope
          ∧ address_Origin addr = origin
          ∧ address_SpaceID addr = spaceid
          ∧ address_CIDR addr = cidr.
Proof.
  intros Hfair Htag Hvalue Htype Hscope Horigin Hspace Hcidr.
  assert (supported 3) as Hsup by (unfold supported; auto).
  assert (wellTyped 3 source) as Hwt.
  { intros k [->|[->|[->|[->|[->| ->]]]]]%fields_V3;
      erewrite fieldValue_present by eassumption; done. }
  exists (assembled 3 source).
  split; [by apply importAddress_wellTyped|].
  unfold assembled, address_Value, address_Type, address_Scope, address_Origin,
    address_SpaceID, address_CIDR; simpl.
  by rewrite (fieldString_present _ _ _ _ Hvalue), (fieldString_present _ _ _ _ Htype),
    (fieldString_present _ _ _ _ Hscope), (fieldString_present _ _ _ _ Horigin),
    (fieldString_present _ _ _ _ Hspace), (fieldString_present _ _ _ _ Hcidr).
Qed.

Lemma importAddress_v3_all_fields_witness :
  ∃ addr, importAddress tagOf schema.ascending docV3 = Ok addr
          ∧ Version addr = 3
          ∧ address_Value addr = "10.0.0.1"
          ∧ address_Type addr = "ipv4"
          ∧ address_Scope addr = "local-cloud"
          ∧ address_Origin addr = "provider"
          ∧ address_SpaceID addr = "7"
          ∧ address_CIDR addr = "10.0.0.0/24".
Proof.
  apply (importAddress_v3_all_fields tagOf schema.ascending docV3);
    [exact fair_ascending | reflexivity..].
Defined.

(** *** A version-1 document without [value] *)

(** C5, as stated, fails: when the document also holds an ill-typed field
    and the field map is walked so that this field comes before [value],
    the error is the type error of that field. *)
Lemma missing_value_not_always_reported :
  schema.fair schema.descending
  ∧ tagOf docV1_noValue_badType = Ok 1
  ∧ docV1_noValue_badType !! "value" = None
  ∧ importAddress tagOf schema.descending docV1_noValue_badType
    = Err (Annotate (SchemaError "string" (VInt 5) ["."; "type"])
                    "address v1 schema check failed")
  ∧ ¬ ∃ e, importAddress tagOf schema.descending docV1_noValue_badType = Err e
           ∧ missingField 1 e.
Proof.
  split; [exact fair_descending|]. repeat split; try reflexivity.
  intros (e & He & k & ->). vm_compute in He. discriminate He.
Qed.

(** C5, amended: a version-1 document without [value] never decodes; the
    import fails with the error of a field that does not coerce to a
    string, annotated with the version-1 message; and when [type], [scope]
    and [origin] hold strings wherever they are present, that error is the
    one of a missing required field. *)
Theorem importAddress_v1_missing_value getVersion rk (source : Source) :
  schema.fair rk →
  getVersion source = Ok 1 →
  source !! "value" = None →
  (∃ k, (k = "value" ∨ k = "type" ∨ k = "scope" ∨ k = "origin")
        ∧ stringOf (schema.fieldValue (schemaOf 1) source k) = None
        ∧ importAddress getVersion rk source
          = Err (Annotate (SchemaError "string"
                             (schema.fieldValue (schemaOf 1) source k) ["."; k])
                          "address v1 schema check failed"))
  ∧ ((∀ k x, (k = "type" ∨ k = "scope" ∨ k = "origin") →
             source !! k = Some x → is_Some (stringOf x)) →
     ∃ k, (k = "value" ∨ k = "type") ∧ source !! k = None
          ∧ importAddress getVersion rk source
            = Err (Annotate (SchemaError "string" VNil ["."; k])
                            "address v1 schema check failed")).
Proof.
  intros Hfair Htag Hvalue.
  assert (supported 1) as Hsup by (unfold supported; auto).
  pose proof (importAddress_supported getVersion rk Hfair source 1 Htag Hsup) as Hout.
  assert (stringOf (schema.fieldValue (schemaOf 1) source "value") = None) as Hnone.
  { rewrite fieldValue_absent, defaults_of by done. by rewrite decide_False by
      (unfold optionalAt; intuition congruence). }
  destruct (importAddress getVersion rk source) as [a|e|];
    cbn [strategyOutcome] in Hout; [| |done].
  { destruct Hout as [Hwt _]. destruct (Hwt "value") as [s Hs].
    - apply fields_V1. auto.
    - congruence. }
  destruct Hout as (k & Hk%fields_V1 & Hbad & ->). split.
  - exists k. done.
  - intros Hothers.
    destruct (source !! k) as [x|] eqn:Hx.
    + exfalso. rewrite (fieldValue_present _ _ _ _ Hx) in Hbad.
      destruct Hk as [->|Hk]; [congruence|].
      destruct (Hothers k x Hk Hx) as [s Hs]. congruence.
    + exists k. rewrite fieldValue_absent, defaults_of in Hbad |- * by done.
      case_decide as Hopt; [done|]. simpl. split; [|done].
      unfold optionalAt in Hopt. intuition.
Qed.

Lemma importAddress_v1_missing_value_witness :
  ∃ k, (k = "value" ∨ k = "type") ∧ docV1_noValue !! k = None
       ∧ importAddress tagOf schema.descending docV1_noValue
         = Err (Annotate (SchemaError "string" VNil ["."; k])
                         "address v1 schema check failed").
Proof.
  apply (importAddress_v1_missing_value tagOf schema.descending docV1_noValue);
    [exact fair_descending | reflexivity | reflexivity |].
  intros k x Hk Hx.
  destruct Hk as [->|[->| ->]]; vm_compute in Hx; inversion Hx; eexists; reflexivity.
Defined.

(** *** Two runs on one document *)

(** C8, as stated, fails on the error side: two runs that walk the field
    map in different orders may name different offending fields. *)
Lemma two_runs_may_name_different_fields :
  schema.fair schema.ascending ∧ schema.fair schema.descending
  ∧ importAddress tagOf schema.ascending docV1_empty
    = Err (Annotate (SchemaError "string" VNil ["."; "value"])
                    "address v1 schema check failed")
  ∧ importAddress tagOf schema.descending docV1_empty
    = Err (Annotate (SchemaError "string" VNil ["."; "type"])
                    "address v1 schema check failed")
  ∧ importAddress tagOf schema.ascending docV1_empty
    ≠ importAddress tagOf schema.descending docV1_empty.
Proof.
  split; [exact fair_ascending|]. split; [exact fair_descending|].
  split; [reflexivity|]. split; [reflexivity|].
  intros Heq. vm_compute in Heq. discriminate Heq.
Qed.

(** C8, amended: two runs of [importAddress] on one document, each with
    its own walk of the field map, either both decode, to the same
    address, or both fail; the two errors are equal, or they are errors of
    the same version's schema check that name two offending fields of the
    document. No run succeeds where another fails. *)
Theorem importAddress_two_runs getVersion rk1 rk2 (source : Source) :
  schema.fair rk1 → schema.fair rk2 →
  match importAddress getVersion rk1 source, importAddress getVersion rk2 source with
  | Ok a1, Ok a2 => a1 = a2
  | Err e1, Err e2 => e1 = e2 ∨ sameSchemaCheck source e1 e2
  | Panic, Panic => getVersion source = Panic
  | _, _ => False
  end.
Proof.
  intros Hfair1 Hfair2.
  destruct (getVersion source) as [version|err|] eqn:Htag.
  - destruct (decide (supported version)) as [Hsup|Hsup].
    + pose proof (importAddress_supported getVersion rk1 Hfair1 source version Htag Hsup) as H1.
      pose proof (importAddress_supported getVersion rk2 Hfair2 source version Htag Hsup) as H2.
      destruct (importAddress getVersion rk1 source) as [a1|e1|],
               (importAddress getVersion rk2 source) as [a2|e2|];
        cbn [strategyOutcome] in H1, H2; try done.
      * destruct H1 as [_ ->], H2 as [_ ->]. done.
      * destruct H1 as [Hwt _], H2 as (k & Hk & Hnone & _).
        destruct (Hwt k Hk) as [s Hs]. congruence.
      * destruct H2 as [Hwt _], H1 as (k & Hk & Hnone & _).
        destruct (Hwt k Hk) as [s Hs]. congruence.
      * destruct H1 as (k1 & Hk1 & Hnone1 & ->), H2 as (k2 & Hk2 & Hnone2 & ->).
        right. by exists version, k1, k2.
    + rewrite !(importAddress_unsupported getVersion _ source version) by done.
      by left.
  - unfold importAddress. rewrite Htag. by left.
  - unfold importAddress. by rewrite Htag.
Qed.

Lemma importAddress_two_runs_witness :
  importAddress tagOf schema.ascending docV1
  = importAddress tagOf schema.descending docV1.
Proof.
  pose proof (importAddress_two_runs tagOf schema.ascending schema.descending docV1
                fair_ascending fair_descending) as H.
  destruct (importAddress tagOf schema.ascending docV1) as [a1|e1|] eqn:H1;
    [|vm_compute in H1; discriminate H1..].
  destruct (importAddress tagOf schema.descending docV1) as [a2|e2|] eqn:H2;
    [|vm_compute in H2; discriminate H2..].
  f_equal. exact H.
Defined.

(** *** Keys outside the schema *)

(** A strategy reads the document at the fields of its schema only. *)
Lemma strategy_ext rk (v v' : Source) version importFunc :
  schema.fair rk →
  addressDeserializationFuncs !! version = Some importFunc →
  (∀ k, is_Some (schema.fields (schemaOf version) !! k) → v !! k = v' !! k) →
  importFunc rk v = importFunc rk v'.
Proof.
  intros Hfair Hf Hagree. rewrite funcs_lookup in Hf.
  repeat case_decide; subst; try done; injection Hf as <-.
  - unfold importAddressV3.
    change addressV3Fields with (schema.fields (schemaOf 3), schema.defaults (schemaOf 3)).
    cbv beta iota zeta.
    change (schema.FieldMap (schema.fields (schemaOf 3)) (schema.defaults (schemaOf 3)))
      with (schemaOf 3).
    by rewrite (FieldMap_Coerce_ext (schemaOf 3) [] rk v v' Hfair Hagree).
  - unfold importAddressV2.
    change addressV2Fields with (schema.fields (schemaOf 2), schema.defaults (schemaOf 2)).
    cbv beta iota zeta.
    change (schema.FieldMap (schema.fields (schemaOf 2)) (schema.defaults (schemaOf 2)))
      with (schemaOf 2).
    by rewrite (FieldMap_Coerce_ext (schemaOf 2) [] rk v v' Hfair Hagree).
  - unfold importAddressV1.
    change addressV1Fields with (schema.fields (schemaOf 1), schema.defaults (schemaOf 1)).
    cbv beta iota zeta.
    change (schema.FieldMap (schema.fields (schemaOf 1)) (schema.defaults (schemaOf 1)))
      with (schemaOf 1).
    by rewrite (FieldMap_Coerce_ext (schemaOf 1) [] rk v v' Hfair Hagree).
Qed.

Lemma version_not_a_field version :
  schema.fields (schemaOf version) !! "version" = None.
Proof.
  apply eq_None_not_Some. intros Hk.
  destruct (decide (supported version)) as [[->|[->| ->]]|Hsup].
  - apply fields_V1 in Hk. intuition congruence.
  - apply fields_V2 in Hk. intuition congruence.
  - apply fields_V3 in Hk. intuition congruence.
  - assert (schemaOf version = schema.FieldMap ∅ ∅) as Hempty.
    { unfold supported in Hsup.
      destruct version as [|[[|[]|]|[]|]|]; try done; exfalso; auto. }
    rewrite Hempty in Hk. by destruct Hk.
Qed.

(** C7: keys that are not fields of the dispatched version's schema, the
    [version] key among them, do not change what its strategy returns: the
    outcome with the added keys is the outcome without them, so a decode
    that succeeds still succeeds, with the same address, whatever the
    added keys hold. The same goes for [importAddress], as long as the
    added keys leave the version tag as it was. *)
Theorem extra_keys_ignored getVersion rk (source extra : Source) version :
  schema.fair rk →
  supported version →
  (∀ k, is_Some (extra !! k) → schema.fields (schemaOf version) !! k = None) →
  schema.fields (schemaOf version) !! "version" = None
  ∧ (∀ importFunc, addressDeserializationFuncs !! version = Some importFunc →
       importFunc rk (extra ∪ source) = importFunc rk source)
  ∧ (getVersion source = Ok version →
     getVersion (extra ∪ source) = getVersion source →
     importAddress getVersion rk (extra ∪ source)
     = importAddress getVersion rk source).
Proof.
  intros Hfair Hsup Hextra.
  assert (∀ k, is_Some (schema.fields (schemaOf version) !! k) →
               (extra ∪ source) !! k = source !! k) as Hagree.
  { intros k Hk. apply lookup_union_r.
    apply eq_None_not_Some. intros Hin. apply Hextra in Hin.
    rewrite Hin in Hk. by destruct Hk. }
  split; [apply version_not_a_field|]. split.
  - intros importFunc Hf. by apply (strategy_ext rk _ _ version).
  - intros Htag Hsame. unfold importAddress. rewrite Hsame, Htag.
    destruct (addressDeserializationFuncs !! version) as [importFunc|] eqn:Hf; [|done].
    by apply (strategy_ext rk _ _ version).
Qed.

Lemma extra_keys_ignored_witness :
  importAddress tagOf schema.ascending (laterKeys ∪ docV1)
  = Ok {| Version := 1; Value_ := "10.0.0.1"; Type_ := "ipv4"; Scope_ := "";
          Origin_ := ""; SpaceID_ := ""; CIDR_ := "" |}.
Proof.
  destruct (extra_keys_ignored tagOf schema.ascending docV1 laterKeys 1)
    as (_ & _ & Himport).
  - exact fair_ascending.
  - left. reflexivity.
  - intros k Hk. apply eq_None_not_Some. intros Hfield%fields_V1.
    destruct Hfield as [->|[->|[->| ->]]]; vm_compute in Hk; by destruct Hk.
  - rewrite Himport; reflexivity.
Defined.

(** ** Batch import *)

Section Batch.

Variable getVersion : Source → result Z.
Variable rks : nat → schema.rangeOrder.

(** The loop walks a prefix of decodable maps and carries on with the
    rest, the decoded addresses appended in order. *)
Lemma importAddressesFrom_prefix pre rest i acc :
  allDecode getVersion rks i pre →
  ∃ addrs, length addrs = length pre
           ∧ importAddressesFrom getVersion rks i (pre ++ rest) acc
             = importAddressesFrom getVersion rks (i + length pre) rest (acc ++ addrs).
Proof.
  revert i acc. induction pre as [|doc pre IH]; intros i acc Hpre.
  - exists []. simpl. by rewrite Nat.add_0_r, app_nil_r.
  - destruct (Hpre 0%nat doc eq_refl) as (source & addr & -> & Hok).
    rewrite Nat.add_0_r in Hok.
    destruct (IH (S i) (acc ++ [addr])%list) as (addrs & Hlen & Heq).
    { intros j d Hj. destruct (Hpre (S j) d Hj) as (s & a & -> & Ha).
      exists s, a. split; [done|]. by rewrite Nat.add_succ_comm. }
    exists (addr :: addrs). split; [simpl; by rewrite Hlen|].
    simpl. rewrite Hok, Heq, <- app_assoc. simpl.
    by rewrite Nat.add_succ_r.
Qed.

(** A run that returns without error decoded every element, in order. *)
Lemma importAddressesFrom_success docs i acc out :
  importAddressesFrom getVersion rks i docs acc = Returned out None →
  ∃ addrs, out = (acc ++ addrs)%list ∧ length addrs = length docs
           ∧ ∀ j doc, docs !! j = Some doc →
               ∃ source addr, doc = VMap source ∧ addrs !! j = Some addr
                 ∧ importAddress getVersion (rks (i + j)%nat) source = Ok addr.
Proof.
  revert i acc. induction docs as [|doc docs IH]; intros i acc Hrun; simpl in Hrun.
  - injection Hrun as <-. exists []. by rewrite app_nil_r.
  - destruct doc as [| | | | | |source]; try done.
    destruct (importAddress getVersion (rks i) source) as [addr|err|] eqn:Hdoc;
      try done.
    destruct (IH _ _ Hrun) as (addrs & -> & Hlen & Hall).
    exists (addr :: addrs). split; [by rewrite <- app_assoc|].
    split; [simpl; by rewrite Hlen|].
    intros [|j] d Hj; simpl in Hj.
    + injection Hj as <-. exists source, addr. by rewrite Nat.add_0_r.
    + destruct (Hall j d Hj) as (s & a & -> & Ha & Hok).
      exists s, a. split; [done|]. split; [done|]. by rewrite <- Nat.add_succ_comm.
Qed.

(** A batch of decodable maps is decoded whole. *)
Lemma importAddresses_all_decode docs :
  allDecode getVersion rks 0 docs →
  ∃ out, length out = length docs
         ∧ importAddresses getVersion rks docs = Returned out None.
Proof.
  intros Hall.
  destruct (importAddressesFrom_prefix docs [] 0 [] Hall) as (addrs & Hlen & Heq).
  exists addrs. split; [done|].
  unfold importAddresses. rewrite app_nil_r in Heq. by rewrite Heq.
Qed.

End Batch.

(** C1, as stated, fails: the error of a map that does not decode is the
    error of its single import, traced; the position of the map is not
    part of it. *)
Lemma decode_failure_carries_no_index :
  importAddresses tagOf (fun _ => schema.ascending)
    [VMap docV3; VMap docV3_noValue; VMap docV3]
  = Returned [] (Some (Trace (Annotate (SchemaError "string" VNil ["."; "value"])
                                       "address v3 schema check failed")))
  ∧ ¬ ∃ e, importAddresses tagOf (fun _ => schema.ascending)
             [VMap docV3; VMap docV3_noValue; VMap docV3] = Returned [] (Some e)
           ∧ carriesIndex 1 e = true.
Proof.
  split; [reflexivity|].
  intros (e & He & Hidx). vm_compute in He.
  injection He as <-. vm_compute in Hidx. discriminate Hidx.
Qed.

(** C1, amended: [importAddresses] takes the elements in order; at the
    first element that is not a [map[string]interface{}], or that is one
    and fails to decode, it returns at once, with no addresses. For an
    element that is not such a map the error names the zero-based position
    and the type of the element; for a map that fails to decode the error
    is the error of [importAddress], traced. What follows the element has
    no part in the result. *)
Theorem importAddresses_first_failure getVersion rks (pre post : list value) (bad : value) :
  allDecode getVersion rks 0 pre →
  match bad with
  | VMap source =>
      ∀ err, importAddress getVersion (rks (length pre)) source = Err err →
        importAddresses getVersion rks (pre ++ bad :: post)
        = Returned [] (Some (Trace err))
  | _ =>
      importAddresses getVersion rks (pre ++ bad :: post)
      = Returned [] (Some (Errorf "unexpected value for address %d, %T"
                                  [ArgInt (Z.of_nat (length pre)); ArgType bad]))
      ∧ carriesIndex (Z.of_nat (length pre))
          (Errorf "unexpected value for address %d, %T"
                  [ArgInt (Z.of_nat (length pre)); ArgType bad]) = true
  end.
Proof.
  intros Hpre. unfold importAddresses.
  destruct (importAddressesFrom_prefix getVersion rks pre (bad :: post) 0 [] Hpre)
    as (addrs & _ & ->).
  destruct bad; simpl; try (split; [done|by rewrite bool_decide_eq_true_2]).
  by intros err ->.
Qed.

Lemma importAddresses_first_failure_witness :
  importAddresses tagOf (fun _ => schema.ascending)
    ([VMap docV3] ++ VString "10.0.0.1" :: [VMap docV3])
  = Returned [] (Some (Errorf "unexpected value for address %d, %T"
                              [ArgInt 1; ArgType (VString "10.0.0.1")]))
  ∧ importAddresses tagOf (fun _ => schema.ascending)
      ([VMap docV3] ++ VMap docV99 :: [VMap docV3])
    = Returned [] (Some (Trace (NotValidf "version %d" [ArgInt 99]))).
Proof.
  assert (allDecode tagOf (fun _ => schema.ascending) 0 [VMap docV3]) as Hpre.
  { intros [|j] doc Hj; simpl in Hj; [|by destruct j].
    injection Hj as <-. eexists _, _. split; reflexivity. }
  split.
  - apply (importAddresses_first_failure tagOf (fun _ => schema.ascending)
             [VMap docV3] [VMap docV3] (VString "10.0.0.1") Hpre).
  - apply (importAddresses_first_failure tagOf (fun _ => schema.ascending)
             [VMap docV3] [VMap docV3] (VMap docV99) Hpre).
    reflexivity.
Defined.

(** C9: when [importAddresses] returns without error, it returns as many
    addresses as there were documents, and the address at each position is
    the one the document at that position decodes to; nothing in gives
    nothing out, without error. *)
Theorem importAddresses_success getVersion rks (docs : list value) (out : list address) :
  importAddresses getVersion rks docs = Returned out None →
  length out = length docs
  ∧ (∀ i doc, docs !! i = Some doc →
       ∃ source addr, doc = VMap source ∧ out !! i = Some addr
                      ∧ importAddress getVersion (rks i) source = Ok addr)
  ∧ importAddresses getVersion rks [] = Returned [] None.
Proof.
  intros Hrun.
  destruct (importAddressesFrom_success getVersion rks docs 0 [] out Hrun)
    as (addrs & -> & Hlen & Hall).
  by repeat split.
Qed.

Lemma importAddresses_success_witness :
  length [assembled 3 docV3; assembled 1 docV1] = length [VMap docV3; VMap docV1]
  ∧ (∀ i doc, [VMap docV3; VMap docV1] !! i = Some doc →
       ∃ source addr, doc = VMap source
         ∧ [assembled 3 docV3; assembled 1 docV1] !! i = Some addr
         ∧ importAddress tagOf schema.descending source = Ok addr)
  ∧ importAddresses tagOf (fun _ => schema.descending) [] = Returned [] None.
Proof.
  apply (importAddresses_success tagOf (fun _ => schema.descending)
           [VMap docV3; VMap docV1] [assembled 3 docV3; assembled 1 docV1]).
  reflexivity.
Defined.

(** * Further properties *)

(** ** What a strategy reads and builds *)

Lemma fields_of version k :
  supported version →
  is_Some (schema.fields (schemaOf version) !! k)
  ↔ k = "value" ∨ k = "type" ∨ optionalAt version k.
Proof.
  unfold optionalAt.
  intros [->|[->| ->]]; [rewrite fields_V1|rewrite fields_V2|rewrite fields_V3];
    intuition lia.
Qed.

(** The checker of a field is handed a string exactly when the document
    holds one under the key, or lacks the key of an optional field. *)
Lemma fieldValue_string version (source : Source) k s :
  supported version →
  stringOf (schema.fieldValue (schemaOf version) source k) = Some s
  ↔ source !! k = Some (VString s)
    ∨ (source !! k = None ∧ optionalAt version k ∧ s = "").
Proof.
  intros Hsup. unfold schema.fieldValue.
  destruct (source !! k) as [x|] eqn:Hk.
  - rewrite stringOf_Some. split.
    + intros ->. by left.
    + intros [Hx|[Hx _]]; congruence.
  - rewrite defaults_of by done. case_decide as Hopt; simpl; split.
    + intros [= <-]. right. auto.
    + intros [Hx|(_ & _ & ->)]; [done|done].
    + done.
    + intros [Hx|(_ & Hopt' & _)]; [done|by destruct Hopt].
Qed.

Lemma strategy_outcome version importFunc rk (source : Source) :
  schema.fair rk →
  addressDeserializationFuncs !! version = Some importFunc →
  strategyOutcome version source (importFunc rk source).
Proof.
  intros Hfair Hf. rewrite funcs_lookup in Hf.
  repeat case_decide; subst; try done; injection Hf as <-.
  - by apply importAddressV3_outcome.
  - by apply importAddressV2_outcome.
  - by apply importAddressV1_outcome.
Qed.

Lemma strategy_Ok_iff version importFunc rk (source : Source) a :
  schema.fair rk →
  addressDeserializationFuncs !! version = Some importFunc →
  importFunc rk source = Ok a
  ↔ wellTyped version source ∧ a = assembled version source.
Proof.
  intros Hfair Hf.
  pose proof (strategy_outcome version importFunc rk source Hfair Hf) as Hout.
  destruct (importFunc rk source) as [a'|e|]; cbn [strategyOutcome] in Hout.
  - destruct Hout as [Hwt ->]. split.
    + by intros [= <-].
    + by intros [_ ->].
  - destruct Hout as (k & Hk & Hnone & _). split; [done|].
    intros [Hwt _]. destruct (Hwt k Hk) as [s Hs]. congruence.
  - done.
Qed.

Lemma fieldString_string version (source : Source) k s :
  stringOf (schema.fieldValue (schemaOf version) source k) = Some s →
  fieldString version source k = s.
Proof. unfold fieldString. by intros ->. Qed.

(** The conditions under which the fields of a version all coerce, and
    the address they are assembled into, spelled out on the document. *)
Lemma decodesAs_iff version (source : Source) a :
  supported version →
  wellTyped version source ∧ a = assembled version source
  ↔ decodesAs version source a.
Proof.
  intros Hsup. unfold decodesAs, holdsString, holdsOptional. split.
  - intros [Hwt ->].
    assert (∀ k, k = "value" ∨ k = "type" ∨ optionalAt version k →
              source !! k = Some (VString (fieldString version source k))
              ∨ (source !! k = None ∧ optionalAt version k
                 ∧ fieldString version source k = "")) as Hfield.
    { intros k Hk. destruct (Hwt k) as [s Hs]; [by apply fields_of|].
      rewrite (fieldString_string _ _ _ _ Hs). by apply fieldValue_string. }
    assert (¬ optionalAt version "value" ∧ ¬ optionalAt version "type") as [Hnv Hnt].
    { unfold optionalAt. split; intuition congruence. }
    simpl. split; [done|].
    split; [destruct (Hfield "value") as [?|(_ & ? & _)]; auto; done|].
    split; [destruct (Hfield "type") as [?|(_ & ? & _)]; auto; done|].
    split; [destruct (Hfield "scope") as [?|(? & _ & ?)]; unfold optionalAt; auto|].
    split; [destruct (Hfield "origin") as [?|(? & _ & ?)]; unfold optionalAt; auto|].
    split.
    + destruct (decide (2 ≤ version)%Z) as [Hle|Hle]; [|done].
      destruct (Hfield "spaceid") as [?|(? & _ & ?)]; unfold optionalAt; auto 10.
    + destruct (decide (3 ≤ version)%Z) as [Hle|Hle]; [|done].
      destruct (Hfield "cidr") as [?|(? & _ & ?)]; unfold optionalAt; auto 10.
  - intros (Hv & Hvalue & Htype & Hscope & Horigin & Hspace & Hcidr).
    assert (∀ k s, optionalAt version k →
              source !! k = Some (VString s) ∨ source !! k = None ∧ s = "" →
              stringOf (schema.fieldValue (schemaOf version) source k) = Some s)
      as Hopt.
    { intros k s Hk Hs. apply fieldValue_string; [done|]. tauto. }
    assert (stringOf (schema.fieldValue (schemaOf version) source "value")
            = Some (Value_ a)) as Hsv by (apply fieldValue_string; auto).
    assert (stringOf (schema.fieldValue (schemaOf version) source "type")
            = Some (Type_ a)) as Hst by (apply fieldValue_string; auto).
    assert (stringOf (schema.fieldValue (schemaOf version) source "scope")
            = Some (Scope_ a)) as Hss by (apply Hopt; unfold optionalAt; auto).
    assert (stringOf (schema.fieldValue (schemaOf version) source "origin")
            = Some (Origin_ a)) as Hso by (apply Hopt; unfold optionalAt; auto).
    split.
    + intros k Hk. apply fields_of in Hk; [|done].
      destruct Hk as [->|[->|[->|[->|[[-> Hle]|[-> Hle]]]]]]; try by eexists.
      * rewrite decide_True in Hspace by done. exists (SpaceID_ a).
        apply Hopt; unfold optionalAt; auto.
      * rewrite decide_True in Hcidr by done. exists (CIDR_ a).
        apply Hopt; unfold optionalAt; auto.
    + destruct a as [v va ty sc og sp ci]. simpl in *. subst v.
      unfold assembled.
      rewrite (fieldString_string _ _ _ _ Hsv), (fieldString_string _ _ _ _ Hst),
        (fieldString_string _ _ _ _ Hss), (fieldString_string _ _ _ _ Hso).
      f_equal.
      * destruct (decide (2 ≤ version)%Z) as [Hle|Hle]; [|done].
        symmetry. apply fieldString_string, Hopt; [|done].
        unfold optionalAt. auto.
      * destruct (decide (3 ≤ version)%Z) as [Hle|Hle]; [|done].
        symmetry. apply fieldString_string, Hopt; [|done].
        unfold optionalAt. auto.
Qed.

(** A document decodes into [a] under its version exactly when it meets
    the conditions of [decodesAs]. *)
Lemma decodesAs_import getVersion rk (source : Source) version a :
  schema.fair rk →
  getVersion source = Ok version → supported version →
  decodesAs version source a →
  importAddress getVersion rk source = Ok a.
Proof.
  intros Hfair Htag Hsup Hdec. unfold importAddress. rewrite Htag.
  destruct (addressDeserializationFuncs !! version) as [importFunc|] eqn:Hf.
  - apply (strategy_Ok_iff version importFunc rk source a Hfair Hf).
    by apply decodesAs_iff.
  - apply funcs_supported in Hsup. rewrite Hf in Hsup. by destruct Hsup.
Qed.

Lemma import_decodesAs getVersion rk (source : Source) a :
  schema.fair rk →
  importAddress getVersion rk source = Ok a →
  ∃ version, getVersion source = Ok version ∧ supported version
             ∧ decodesAs version source a.
Proof.
  intros Hfair Himp. unfold importAddress in Himp.
  destruct (getVersion source) as [version|err|] eqn:Htag; [|done..].
  destruct (addressDeserializationFuncs !! version) as [importFunc|] eqn:Hf; [|done].
  assert (supported version) as Hsup by (apply funcs_supported; by rewrite Hf).
  exists version. split; [done|]. split; [done|].
  apply decodesAs_iff; [done|].
  by apply (strategy_Ok_iff version importFunc rk source a Hfair Hf).
Qed.

(** ** The tagged mapping of an address *)

Lemma omitempty_lookup k s (m : Source) k' :
  omitempty k s m !! k'
  = if decide (k = k' ∧ s ≠ "") then Some (VString s) else m !! k'.
Proof.
  unfold omitempty. destruct (decide (s = "")) as [->|Hs].
  - by rewrite decide_False by tauto.
  - rewrite lookup_insert. repeat case_decide; tauto.
Qed.

Lemma tagged_required a :
  holdsString (tagged a) "value" (Value_ a)
  ∧ holdsString (tagged a) "type" (Type_ a).
Proof.
  unfold holdsString, tagged. rewrite !omitempty_lookup.
  rewrite !decide_False by (intros [? _]; congruence).
  split; by simplify_map_eq.
Qed.

Lemma tagged_optional a :
  holdsOptional (tagged a) "scope" (Scope_ a)
  ∧ holdsOptional (tagged a) "origin" (Origin_ a)
  ∧ holdsOptional (tagged a) "spaceid" (SpaceID_ a)
  ∧ holdsOptional (tagged a) "cidr" (CIDR_ a).
Proof.
  assert (∀ k s (m : Source), m !! k = None →
            holdsOptional (omitempty k s m) k s) as Hhere.
  { intros k s m Hm. unfold holdsOptional. rewrite omitempty_lookup.
    destruct (decide (s = "")) as [->|Hs].
    - right. by rewrite decide_False by tauto.
    - left. by rewrite decide_True by tauto. }
  assert (∀ k k' s s' (m : Source), k ≠ k' →
            holdsOptional m k' s' → holdsOptional (omitempty k s m) k' s') as Hskip.
  { intros k k' s s' m Hne. unfold holdsOptional. rewrite omitempty_lookup.
    by rewrite decide_False by tauto. }
  unfold tagged. repeat split.
  - do 3 (apply Hskip; [done|]). apply Hhere. by simplify_map_eq.
  - do 2 (apply Hskip; [done|]). apply Hhere.
    rewrite omitempty_lookup, decide_False by (intros [? _]; congruence).
    by simplify_map_eq.
  - apply Hskip; [done|]. apply Hhere.
    rewrite !omitempty_lookup, !decide_False by (intros [? _]; congruence).
    by simplify_map_eq.
  - apply Hhere.
    rewrite !omitempty_lookup, !decide_False by (intros [? _]; congruence).
    by simplify_map_eq.
Qed.

(** The tagged mapping of an address meets the conditions of the
    address's own version, for the address that version keeps. *)
Lemma tagged_decodesAs a :
  decodesAs (Version a) (tagged a) (atVersion (Version a) a).
Proof.
  destruct (tagged_required a) as [Hvalue Htype].
  destruct (tagged_optional a) as (Hscope & Horigin & Hspace & Hcidr).
  unfold decodesAs, atVersion. simpl.
  repeat split; try done; by case_decide.
Qed.

(** ** Single import, further *)

(** X1: after a successful coercion the type assertions of the three
    import functions find a string under every key they read, so none of
    them panics; [importAddress] panics only if [getVersion] does. *)
Theorem import_never_panics getVersion rk (source : Source) :
  schema.fair rk →
  importAddressV1 rk source ≠ Panic
  ∧ importAddressV2 rk source ≠ Panic
  ∧ importAddressV3 rk source ≠ Panic
  ∧ (importAddress getVersion rk source = Panic → getVersion source = Panic).
Proof.
  intros Hfair.
  pose proof (importAddressV1_outcome rk source Hfair) as H1.
  pose proof (importAddressV2_outcome rk source Hfair) as H2.
  pose proof (importAddressV3_outcome rk source Hfair) as H3.
  split; [by intros Heq; rewrite Heq in H1|].
  split; [by intros Heq; rewrite Heq in H2|].
  split; [by intros Heq; rewrite Heq in H3|].
  intros Himp. destruct (getVersion source) as [version|err|] eqn:Htag; [| |done].
  - exfalso. revert Himp. apply importAddress_no_panic; [done|]. by rewrite Htag.
  - unfold importAddress in Himp. by rewrite Htag in Himp.
Qed.

Lemma import_never_panics_witness :
  importAddressV1 schema.descending docV3_noValue ≠ Panic
  ∧ importAddressV2 schema.descending docV3_noValue ≠ Panic
  ∧ importAddressV3 schema.descending docV3_noValue ≠ Panic
  ∧ (importAddress tagOf schema.descending docV3_noValue = Panic →
     tagOf docV3_noValue = Panic).
Proof.
  apply (import_never_panics tagOf schema.descending docV3_noValue).
  exact fair_descending.
Defined.

Lemma schemaOf_wellLayered version :
  supported version →
  wellLayered (schema.fields (schemaOf version), schema.defaults (schemaOf version)).
Proof.
  intros Hsup. split; simpl.
  - intros k. rewrite fields_of, defaults_of by done.
    assert (¬ optionalAt version "value" ∧ ¬ optionalAt version "type") as [Hnv Hnt].
    { unfold optionalAt. split; intuition congruence. }
    case_decide as Hopt; split.
    + by intros [_ ?].
    + intros [->| ->]; [by destruct Hnv | by destruct Hnt].
    + intros [[?|[?|?]] _]; auto. done.
    + intros [->| ->]; auto.
  - intros k d. rewrite fields_of, defaults_of by done.
    case_decide; [|done]. intros [= <-]. auto.
Qed.

(** X2: each schema extends the one before it, fields and defaults
    alike; at every version the required fields are [value] and [type]
    and nothing else, and every default is the empty string of a field of
    the schema. *)
Theorem schemas_layered :
  addressV1Fields.1 ⊆ addressV2Fields.1
  ∧ addressV2Fields.1 ⊆ addressV3Fields.1
  ∧ addressV1Fields.2 ⊆ addressV2Fields.2
  ∧ addressV2Fields.2 ⊆ addressV3Fields.2
  ∧ wellLayered addressV1Fields
  ∧ wellLayered addressV2Fields
  ∧ wellLayered addressV3Fields.
Proof.
  assert (supported 1 ∧ supported 2 ∧ supported 3) as (S1 & S2 & S3)
    by (unfold supported; auto).
  assert (∀ k, optionalAt 1 k → k ≠ "spaceid" ∧ k ≠ "cidr") as Hopt1.
  { unfold optionalAt. intros k [->|[->|[[_ ?]|[_ ?]]]]; try lia; done. }
  assert (∀ k, optionalAt 2 k → k ≠ "cidr") as Hopt2.
  { unfold optionalAt. intros k [->|[->|[[-> _]|[_ ?]]]]; try lia; done. }
  split; [|split; [|split; [|split]]].
  - apply insert_subseteq, eq_None_not_Some.
    intros H%(fields_of 1 "spaceid" S1).
    destruct H as [?|[?|H%Hopt1]]; try done. by destruct H.
  - apply insert_subseteq, eq_None_not_Some.
    intros H%(fields_of 2 "cidr" S2).
    destruct H as [?|[?|H%Hopt2]]; done.
  - apply insert_subseteq.
    change (schema.defaults (schemaOf 1) !! "spaceid" = None).
    rewrite defaults_of, decide_False; [done| |done].
    intros H%Hopt1. by destruct H.
  - apply insert_subseteq.
    change (schema.defaults (schemaOf 2) !! "cidr" = None).
    rewrite defaults_of, decide_False; [done| |done].
    by intros H%Hopt2.
  - split; [exact (schemaOf_wellLayered 1 S1)|].
    split; [exact (schemaOf_wellLayered 2 S2) | exact (schemaOf_wellLayered 3 S3)].
Qed.

(** X3: [importAddress] decodes a document into the address [a] exactly
    when the version tag is [a]'s version, one of 1, 2 and 3, the document
    holds [a]'s [value] and [type] as strings, and for each optional field
    of that version it holds [a]'s string or lacks the key while [a]'s
    field is empty; the fields the version does not know are empty in
    [a]. *)
Theorem importAddress_decodes_exactly getVersion rk (source : Source) a :
  schema.fair rk →
  importAddress getVersion rk source = Ok a
  ↔ getVersion source = Ok (Version a) ∧ supported (Version a)
    ∧ decodesAs (Version a) source a.
Proof.
  intros Hfair. split.
  - intros (version & Htag & Hsup & Hdec)%import_decodesAs; [|done].
    assert (Version a = version) as -> by apply Hdec. done.
  - intros (Htag & Hsup & Hdec). by apply (decodesAs_import _ _ _ (Version a)).
Qed.

Lemma importAddress_decodes_exactly_witness :
  importAddress tagOf schema.ascending docV3 = Ok (assembled 3 docV3)
  ↔ tagOf docV3 = Ok (Version (assembled 3 docV3))
    ∧ supported (Version (assembled 3 docV3))
    ∧ decodesAs (Version (assembled 3 docV3)) docV3 (assembled 3 docV3).
Proof.
  apply (importAddress_decodes_exactly tagOf schema.ascending docV3 (assembled 3 docV3)).
  exact fair_ascending.
Defined.

(** X4: the errors of [importAddress] are of three kinds and no other:
    the error of [getVersion], annotated; the not-valid error of a version
    without import function; the schema error of a field of the version
    under which the document holds no string (and, if it lacks the key,
    that has no default), annotated with the version's message. *)
Theorem importAddress_errors getVersion rk (source : Source) e :
  schema.fair rk →
  importAddress getVersion rk source = Err e →
  (∃ err, getVersion source = Err err
          ∧ e = Annotate err "address version schema check failed")
  ∨ (∃ version, getVersion source = Ok version ∧ ¬ supported version
                ∧ e = NotValidf "version %d" [ArgInt version])
  ∨ (∃ version k, getVersion source = Ok version ∧ supported version
        ∧ (k = "value" ∨ k = "type" ∨ optionalAt version k)
        ∧ (∀ s, source !! k ≠ Some (VString s))
        ∧ (source !! k = None → k = "value" ∨ k = "type")
        ∧ e = Annotate (SchemaError "string" (default VNil (source !! k)) ["."; k])
                       (annotation version)).
Proof.
  intros Hfair Himp.
  destruct (getVersion source) as [version|err|] eqn:Htag.
  - destruct (decide (supported version)) as [Hsup|Hsup].
    + right. right.
      pose proof (importAddress_supported getVersion rk Hfair source version Htag Hsup)
        as Hout.
      rewrite Himp in Hout. cbn [strategyOutcome] in Hout.
      destruct Hout as (k & Hk & Hnone & ->).
      apply fields_of in Hk; [|done].
      assert (∀ s, ¬ (source !! k = Some (VString s)
                      ∨ source !! k = None ∧ optionalAt version k ∧ s = "")) as Hno.
      { intros s Hs%fieldValue_string; [|done]. congruence. }
      exists version, k. split; [done|]. split; [done|]. split; [done|].
      split; [intros s Hs; apply (Hno s); by left|].
      split.
      * intros Habsent. destruct Hk as [?|[?|Hopt]]; auto.
        destruct (Hno ""). right. done.
      * unfold schema.fieldValue. destruct (source !! k) as [x|] eqn:Hx; [done|].
        rewrite defaults_of by done. case_decide as Hopt; [|done].
        destruct (Hno ""). right. done.
    + right. left. exists version. split; [done|]. split; [done|].
      rewrite (importAddress_unsupported getVersion rk source version) in Himp by done.
      congruence.
  - left. exists err. split; [done|].
    unfold importAddress in Himp. rewrite Htag in Himp. congruence.
  - unfold importAddress in Himp. by rewrite Htag in Himp.
Qed.

Lemma importAddress_errors_witness :
  (∃ err, tagOf docV1_noValue_badType = Err err
          ∧ Annotate (SchemaError "string" (VInt 5) ["."; "type"])
                     "address v1 schema check failed"
            = Annotate err "address version schema check failed")
  ∨ (∃ version, tagOf docV1_noValue_badType = Ok version ∧ ¬ supported version
                ∧ Annotate (SchemaError "string" (VInt 5) ["."; "type"])
                           "address v1 schema check failed"
                  = NotValidf "version %d" [ArgInt version])
  ∨ (∃ version k, tagOf docV1_noValue_badType = Ok version ∧ supported version
        ∧ (k = "value" ∨ k = "type" ∨ optionalAt version k)
        ∧ (∀ s, docV1_noValue_badType !! k ≠ Some (VString s))
        ∧ (docV1_noValue_badType !! k = None → k = "value" ∨ k = "type")
        ∧ Annotate (SchemaError "string" (VInt 5) ["."; "type"])
                   "address v1 schema check failed"
          = Annotate (SchemaError "string"
                        (default VNil (docV1_noValue_badType !! k)) ["."; k])
                     (annotation version)).
Proof.
  apply (importAddress_errors tagOf schema.descending docV1_noValue_badType);
    [exact fair_descending | reflexivity].
Defined.

(** ** One document under two versions *)

(** X5: a document that decodes under a version also decodes under every
    older version; the older import function returns the same address
    with its own version, the fields it does not know left empty. *)
Theorem older_version_drops_later_fields rk rk' (source : Source) v w importOld importNew a :
  schema.fair rk → schema.fair rk' →
  addressDeserializationFuncs !! v = Some importOld →
  addressDeserializationFuncs !! w = Some importNew →
  (v ≤ w)%Z →
  importNew rk source = Ok a →
  importOld rk' source = Ok (atVersion v a).
Proof.
  intros Hfair Hfair' Hold Hnew Hle Hdec.
  assert (supported v) as Hv by (apply funcs_supported; by rewrite Hold).
  assert (supported w) as Hw by (apply funcs_supported; by rewrite Hnew).
  apply (strategy_Ok_iff w importNew rk source a Hfair Hnew) in Hdec.
  apply decodesAs_iff in Hdec; [|done].
  apply (strategy_Ok_iff v importOld rk' source _ Hfair' Hold).
  apply decodesAs_iff; [done|].
  destruct Hdec as (_ & Hvalue & Htype & Hscope & Horigin & Hspace & Hcidr).
  unfold decodesAs, atVersion. simpl.
  repeat split; try done.
  - destruct (decide (2 ≤ v)%Z); [|done]. by rewrite decide_True in Hspace by lia.
  - destruct (decide (3 ≤ v)%Z); [|done]. by rewrite decide_True in Hcidr by lia.
Qed.

Lemma older_version_drops_later_fields_witness :
  importAddressV1 schema.descending docV3
  = Ok {| Version := 1; Value_ := "10.0.0.1"; Type_ := "ipv4";
          Scope_ := "local-cloud"; Origin_ := "provider";
          SpaceID_ := ""; CIDR_ := "" |}.
Proof.
  apply (older_version_drops_later_fields schema.ascending schema.descending docV3
           1 3 importAddressV1 importAddressV3 (assembled 3 docV3));
    [exact fair_ascending | exact fair_descending | reflexivity | reflexivity
    | lia | reflexivity].
Defined.

(** X6: a document that decodes under a version and has none of the keys
    a newer version adds decodes under the newer version too, to the same
    address but for the version: the fields added since are allowed to be
    missing and come out empty. *)
Theorem newer_version_tolerates_missing_fields rk rk' (source : Source)
    v w importOld importNew a :
  schema.fair rk → schema.fair rk' →
  addressDeserializationFuncs !! v = Some importOld →
  addressDeserializationFuncs !! w = Some importNew →
  (v ≤ w)%Z →
  (∀ k, optionalAt w k → ¬ optionalAt v k → source !! k = None) →
  importOld rk source = Ok a →
  importNew rk' source
  = Ok {| Version := w; Value_ := Value_ a; Type_ := Type_ a; Scope_ := Scope_ a;
          Origin_ := Origin_ a; SpaceID_ := SpaceID_ a; CIDR_ := CIDR_ a |}.
Proof.
  intros Hfair Hfair' Hold Hnew Hle Habsent Hdec.
  assert (supported v) as Hv by (apply funcs_supported; by rewrite Hold).
  assert (supported w) as Hw by (apply funcs_supported; by rewrite Hnew).
  apply (strategy_Ok_iff v importOld rk source a Hfair Hold) in Hdec.
  apply decodesAs_iff in Hdec; [|done].
  apply (strategy_Ok_iff w importNew rk' source _ Hfair' Hnew).
  apply decodesAs_iff; [done|].
  destruct Hdec as (_ & Hvalue & Htype & Hscope & Horigin & Hspace & Hcidr).
  unfold decodesAs. simpl.
  repeat split; try done.
  - destruct (decide (2 ≤ w)%Z) as [H2w|H2w].
    + destruct (decide (2 ≤ v)%Z) as [H2v|H2v]; [done|].
      right. split; [|done]. apply Habsent; unfold optionalAt.
      * auto.
      * intros [?|[?|[[_ ?]|[? _]]]]; done.
    + by rewrite decide_False in Hspace by lia.
  - destruct (decide (3 ≤ w)%Z) as [H3w|H3w].
    + destruct (decide (3 ≤ v)%Z) as [H3v|H3v]; [done|].
      right. split; [|done]. apply Habsent; unfold optionalAt.
      * auto 10.
      * intros [?|[?|[[? _]|[_ ?]]]]; done.
    + by rewrite decide_False in Hcidr by lia.
Qed.

Lemma newer_version_tolerates_missing_fields_witness :
  importAddressV3 schema.ascending docV1
  = Ok {| Version := 3; Value_ := "10.0.0.1"; Type_ := "ipv4"; Scope_ := "";
          Origin_ := ""; SpaceID_ := ""; CIDR_ := "" |}.
Proof.
  apply (newer_version_tolerates_missing_fields schema.descending schema.ascending
           docV1 1 3 importAddressV1 importAddressV3 (assembled 1 docV1));
    [exact fair_descending | exact fair_ascending | reflexivity | reflexivity
    | lia | | reflexivity].
  intros k [->|[->|[[-> _]|[-> _]]]] Hnot; try reflexivity;
    destruct Hnot; unfold optionalAt; auto.
Defined.

(** ** Writing an address out and reading it back *)

(** X7: the mapping the yaml tags describe for an address of version 1, 2
    or 3 is read back by [importAddress] as that address, less the fields
    its version does not know: an address of version 3 comes back whole. *)
Theorem tagged_round_trip getVersion rk a :
  schema.fair rk →
  supported (Version a) →
  getVersion (tagged a) = Ok (Version a) →
  importAddress getVersion rk (tagged a) = Ok (atVersion (Version a) a)
  ∧ (Version a = 3 → importAddress getVersion rk (tagged a) = Ok a).
Proof.
  intros Hfair Hsup Htag.
  assert (importAddress getVersion rk (tagged a) = Ok (atVersion (Version a) a)) as Himp.
  { apply (decodesAs_import _ _ _ (Version a)); try done. apply tagged_decodesAs. }
  split; [done|]. intros H3. rewrite Himp. f_equal.
  destruct a as [v va ty sc og sp ci]. simpl in *. subst v. reflexivity.
Qed.

Lemma tagged_round_trip_witness :
  importAddress tagOf schema.ascending (tagged (assembled 3 docV3))
  = Ok (assembled 3 docV3).
Proof.
  apply (tagged_round_trip tagOf schema.ascending (assembled 3 docV3));
    [exact fair_ascending | right; right; reflexivity | reflexivity | reflexivity].
Defined.

(** X8: an address built by [newAddress], written out as its yaml tags
    say, is read back unchanged, whichever optional arguments were left
    empty: the keys that [omitempty] leaves out are the ones version 3
    allows to be missing. *)
Theorem newAddress_round_trip getVersion rk (args : AddressArgs) :
  schema.fair rk →
  getVersion (tagged (newAddress args)) = Ok 3 →
  importAddress getVersion rk (tagged (newAddress args)) = Ok (newAddress args).
Proof.
  intros Hfair Htag.
  apply (decodesAs_import _ _ _ 3); [done|done|unfold supported; auto|].
  exact (tagged_decodesAs (newAddress args)).
Qed.

Lemma newAddress_round_trip_witness :
  importAddress tagOf schema.descending (tagged (newAddress someArgs))
  = Ok (newAddress someArgs).
Proof.
  apply (newAddress_round_trip tagOf schema.descending someArgs);
    [exact fair_descending | reflexivity].
Defined.

(** ** Batch import, further *)

Section BatchFurther.

Variable getVersion : Source → result Z.
Variable rks : nat → schema.rangeOrder.

Lemma decodedInto_allDecode docs out :
  decodedInto getVersion rks docs out → allDecode getVersion rks 0 docs.
Proof.
  intros [_ Hall] j doc Hj. destruct (Hall j doc Hj) as (source & addr & -> & _ & Hok).
  by exists source, addr.
Qed.

(** A run returns [out] without error exactly when [out] is what the
    documents decode to. *)
Lemma batch_success_iff docs out :
  importAddresses getVersion rks docs = Returned out None
  ↔ decodedInto getVersion rks docs out.
Proof.
  assert (∀ out', importAddresses getVersion rks docs = Returned out' None →
                  decodedInto getVersion rks docs out') as Hthere.
  { intros out' Hrun.
    destruct (importAddressesFrom_success getVersion rks docs 0 [] out' Hrun)
      as (addrs & -> & Hlen & Hall).
    by split. }
  split; [apply Hthere|].
  intros Hdec.
  destruct (importAddresses_all_decode getVersion rks docs
              (decodedInto_allDecode docs out Hdec)) as (out' & Hlen' & Hrun).
  rewrite Hrun. f_equal.
  destruct (Hthere out' Hrun) as [_ Hall'], Hdec as [Hlen Hall].
  apply list_eq. intros i.
  destruct (docs !! i) as [doc|] eqn:Hi.
  - destruct (Hall i doc Hi) as (s & a & -> & -> & Ha).
    destruct (Hall' i (VMap s) Hi) as (s' & a' & [= <-] & -> & Ha').
    congruence.
  - apply lookup_ge_None in Hi.
    rewrite !lookup_ge_None_2 by lia. done.
Qed.

(** The elements before the first offender decode, and the error is
    about the offender alone. *)
Lemma importAddressesFrom_failure docs i acc out e :
  importAddressesFrom getVersion rks i docs acc = Returned out (Some e) →
  out = []
  ∧ ∃ j bad, docs !! j = Some bad
      ∧ allDecode getVersion rks i (take j docs)
      ∧ match bad with
        | VMap source =>
            ∃ err, importAddress getVersion (rks (i + j)%nat) source = Err err
                   ∧ e = Trace err
        | _ =>
            e = Errorf "unexpected value for address %d, %T"
                       [ArgInt (Z.of_nat (i + j)); ArgType bad]
        end.
Proof.
  revert i acc. induction docs as [|doc docs IH]; intros i acc Hrun; simpl in Hrun.
  { done. }
  assert (allDecode getVersion rks i (take 0 (doc :: docs))) as Hnone.
  { intros j d Hj. done. }
  destruct doc as [|b|n|s|l|m|source];
    try (injection Hrun as <- <-; split; [done|];
         eexists 0%nat, _; split; [done|]; split; [done|];
         by rewrite Nat.add_0_r).
  destruct (importAddress getVersion (rks i) source) as [addr|err|] eqn:Hdoc.
  - destruct (IH _ _ Hrun) as (-> & j & bad & Hj & Hpre & Hbad).
    split; [done|]. exists (S j), bad. split; [done|]. split.
    + intros [|k] d Hk; simpl in Hk.
      * injection Hk as <-. exists source, addr. by rewrite Nat.add_0_r.
      * destruct (Hpre k d Hk) as (s' & a' & -> & Ha').
        exists s', a'. split; [done|]. by rewrite <- Nat.add_succ_comm.
    + rewrite <- Nat.add_succ_comm. exact Hbad.
  - injection Hrun as <- <-. split; [done|].
    exists 0%nat, (VMap source). split; [done|]. split; [done|].
    exists err. by rewrite Nat.add_0_r.
  - done.
Qed.

Lemma importAddressesFrom_no_panic docs i acc :
  (∀ j, schema.fair (rks j)) →
  (∀ source, getVersion source ≠ Panic) →
  importAddressesFrom getVersion rks i docs acc ≠ Panicked.
Proof.
  intros Hfair Htag. revert i acc.
  induction docs as [|doc docs IH]; intros i acc; simpl; [done|].
  destruct doc; try done.
  destruct (importAddress getVersion (rks i) m) as [addr|err|] eqn:Hdoc; [apply IH|done|].
  exfalso. revert Hdoc. apply importAddress_no_panic; [apply Hfair|apply Htag].
Qed.

End BatchFurther.

(** X9: [importAddresses] returns without error exactly when every
    element of the input is a [map[string]interface{}] that
    [importAddress] decodes. *)
Theorem importAddresses_succeeds_exactly getVersion rks (docs : list value) :
  (∃ out, importAddresses getVersion rks docs = Returned out None)
  ↔ allDecode getVersion rks 0 docs.
Proof.
  split.
  - intros [out Hrun%batch_success_iff]. by eapply decodedInto_allDecode.
  - intros Hall.
    destruct (importAddresses_all_decode getVersion rks docs Hall) as (out & _ & Hrun).
    by exists out.
Qed.

(** X10: a batch that is two batches one after the other succeeds exactly
    when both succeed, the second decoded at the positions it has in the
    whole; the result is the two results one after the other. *)
Theorem importAddresses_app getVersion rks (xs ys : list value) (out : list address) :
  importAddresses getVersion rks (xs ++ ys) = Returned out None
  ↔ ∃ out1 out2,
      out = (out1 ++ out2)%list
      ∧ importAddresses getVersion rks xs = Returned out1 None
      ∧ importAddresses getVersion (fun j => rks (length xs + j)%nat) ys
        = Returned out2 None.
Proof.
  rewrite batch_success_iff. split.
  - intros [Hlen Hall]. rewrite length_app in Hlen.
    exists (take (length xs) out), (drop (length xs) out).
    split; [by rewrite take_drop|]. rewrite !batch_success_iff. split; split.
    + rewrite length_take. lia.
    + intros i doc Hi.
      destruct (Hall i doc) as (s & a & -> & Ha & Hok); [by apply lookup_app_l_Some|].
      exists s, a. split; [done|]. split; [|done].
      rewrite lookup_take_lt; [done|]. by apply lookup_lt_Some in Hi.
    + rewrite length_drop. lia.
    + intros j doc Hj.
      destruct (Hall (length xs + j)%nat doc) as (s & a & -> & Ha & Hok).
      { by rewrite lookup_app_r, Nat.add_comm, Nat.add_sub by lia. }
      exists s, a. split; [done|]. split; [|done]. by rewrite lookup_drop.
  - intros (out1 & out2 & -> & [Hlen1 Hall1]%batch_success_iff
            & [Hlen2 Hall2]%batch_success_iff).
    split; [rewrite !length_app; lia|].
    intros i doc [Hi|[Hge Hi]]%lookup_app_Some.
    + destruct (Hall1 i doc Hi) as (s & a & -> & Ha & Hok).
      exists s, a. split; [done|]. split; [|done]. by apply lookup_app_l_Some.
    + destruct (Hall2 _ doc Hi) as (s & a & -> & Ha & Hok).
      exists s, a. split; [done|]. split.
      * rewrite lookup_app_r by lia. by rewrite Hlen1.
      * by replace (length xs + (i - length xs))%nat with i in Hok by lia.
Qed.

(** X11: [importAddresses] returns an error exactly when some element is
    the first offender of the input, and then it returns no address: the
    error names the position and type of a first offender that is no
    [map[string]interface{}], and is the traced import error of one that
    is. *)
Theorem importAddresses_fails_exactly getVersion rks (docs : list value)
    (out : list address) (e : error) :
  importAddresses getVersion rks docs = Returned out (Some e)
  ↔ out = [] ∧ ∃ i, firstOffender getVersion rks docs i e.
Proof.
  split.
  - intros Hrun.
    destruct (importAddressesFrom_failure getVersion rks docs 0 [] out e Hrun)
      as (-> & j & bad & Hj & Hpre & Hbad).
    split; [done|]. exists j. split; [done|]. by exists bad.
  - intros (-> & i & Hpre & bad & Hi & Hbad).
    rewrite <- (take_drop_middle docs i bad Hi). unfold importAddresses.
    destruct (importAddressesFrom_prefix getVersion rks (take i docs)
                (bad :: drop (S i) docs) 0 [] Hpre) as (addrs & _ & ->).
    rewrite length_take_le by (apply lookup_lt_Some in Hi; lia).
    destruct bad; simpl; try by rewrite Hbad.
    destruct Hbad as (err & -> & ->). done.
Qed.

(** X12: with fair walks of the field maps and a [getVersion] that does
    not panic, [importAddresses] does not panic on any input. *)
Theorem importAddresses_never_panics getVersion rks (docs : list value) :
  (∀ i, schema.fair (rks i)) →
  (∀ source, getVersion source ≠ Panic) →
  importAddresses getVersion rks docs ≠ Panicked.
Proof. intros Hfair Htag. by apply importAddressesFrom_no_panic. Qed.

Lemma importAddresses_never_panics_witness :
  importAddresses tagOf (fun _ => schema.descending)
    [VMap docV3; VList [VNil]; VMap docV99] ≠ Panicked.
Proof.
  apply (importAddresses_never_panics tagOf (fun _ => schema.descending)).
  - intros i. exact fair_descending.
  - intros source. unfold tagOf.
    destruct (source !! "version") as [[]|]; discriminate.
Defined.
